(** * bonic-chat: lesson upsert and chat route handlers

    A shallow embedding of the two Next.js route handlers of the repository

    - [Upsert.POST]  (api/upsert-lesson/route.ts): validate a lesson, embed it,
      merge the metadata and write one vector record;
    - [Chat.POST]    (api/chat/route.ts): validate a message batch, resolve or
      create the per-user chat session, propagate the lesson filter, invoke the
      agent, append to and trim the chat history.

    The third-party services (OpenAI embeddings, the Pinecone namespace, the
    LangChain agent executor, uuid, the clock) are collaborators: each handler
    takes a [World] record holding what they answer, and every call to one of
    them is appended to a call log kept in the handler's state. *)

From Stdlib Require Import ZArith String Ascii DecimalString DecimalPos DecimalZ.
From stdpp Require Import gmap strings list fin_maps.

#[local] Set Warnings "-register-all".

(** ** JavaScript values, strings and completions *)

Module JS.

(** A value obtained from [JSON.parse] (plus [undefined] for an absent
    property).  Strings are sequences of code units; one [ascii] stands for a
    code unit below 256.  Numbers are modelled on the integers (the safe
    integers of a double); fractional numbers are outside the model. *)
Inductive JSValue : Type :=
| JSUndefined
| JSNull
| JSBool (b : bool)
| JSNumber (n : Z)
| JSString (s : string)
| JSArray (l : list JSValue)
| JSObject (o : gmap string JSValue).

(** ToBoolean. *)
Definition truthy (v : JSValue) : bool :=
  match v with
  | JSUndefined | JSNull => false
  | JSBool b => b
  | JSNumber n => negb (n =? 0)%Z
  | JSString s => negb (String.eqb s "")
  | JSArray _ | JSObject _ => true
  end.

(** The [typeof] operator. *)
Definition typeof (v : JSValue) : string :=
  match v with
  | JSUndefined => "undefined"
  | JSNull => "object"
  | JSBool _ => "boolean"
  | JSNumber _ => "number"
  | JSString _ => "string"
  | JSArray _ | JSObject _ => "object"
  end.

(** [!s] on a string: the empty string is the only falsy one. *)
Definition str_truthy (s : string) : bool := negb (String.eqb s "").

(** [Number.prototype.toString()] on a safe integer: its decimal numeral,
    with a leading minus sign for a negative one. *)
Definition Number_toString (n : Z) : string :=
  NilZero.string_of_int (Z.to_int n).

Definition safe_integer (n : Z) : Prop :=
  (- (2 ^ 53 - 1) <= n <= 2 ^ 53 - 1)%Z.

(** The class [\s] of a regular expression, which is also what [trim]
    removes, on code units below 256: TAB, LF, VT, FF, CR, SP and NBSP. *)
Definition is_whitespace (c : ascii) : bool :=
  let n := nat_of_ascii c in
  ((9 <=? n)%nat && (n <=? 13)%nat) || (n =? 32)%nat || (n =? 160)%nat.

(** [s.replace(/\s\s+/g, ' ')]: every maximal run of two or more whitespace
    code units becomes one space; a single whitespace code unit is no match
    and is kept as it is.  [in_run] says that the scan is inside a run whose
    replacement has been emitted already. *)
Fixpoint replace_ws_runs (in_run : bool) (s : string) : string :=
  match s with
  | EmptyString => EmptyString
  | String c r =>
      if is_whitespace c then
        if in_run then replace_ws_runs true r
        else
          match r with
          | String d _ =>
              if is_whitespace d then String " " (replace_ws_runs true r)
              else String c (replace_ws_runs false r)
          | EmptyString => String c EmptyString
          end
      else String c (replace_ws_runs false r)
  end.

(** Does [s] hold whitespace only? *)
Fixpoint all_whitespace (s : string) : bool :=
  match s with
  | EmptyString => true
  | String c r => is_whitespace c && all_whitespace r
  end.

Fixpoint trimStart (s : string) : string :=
  match s with
  | EmptyString => EmptyString
  | String c r => if is_whitespace c then trimStart r else s
  end.

Fixpoint trimEnd (s : string) : string :=
  match s with
  | EmptyString => EmptyString
  | String c r =>
      let r' := trimEnd r in
      if is_whitespace c && String.eqb r' "" then EmptyString else String c r'
  end.

Definition trim (s : string) : string := trimEnd (trimStart s).

(** What a [throw] carries, as far as [error instanceof Error] and
    [error.message] can tell. *)
Inductive Thrown : Type :=
| ErrorObject (message : string)
| NotAnError.

(** [error instanceof Error ? error.message : dflt] *)
Definition message_or (dflt : string) (e : Thrown) : string :=
  match e with
  | ErrorObject m => m
  | NotAnError => dflt
  end.

(** How the evaluation of a statement or of an awaited call ends. *)
Inductive Completion (A : Type) : Type :=
| Normal (a : A)
| Throw (e : Thrown).
Arguments Normal {A} a.
Arguments Throw {A} e.

(** Handler code: a computation over a state [S] that returns or throws.
    The state survives a throw, as mutations made before a JavaScript
    exception do. *)
Definition Eff (S A : Type) : Type := S -> Completion A * S.

Definition ret {S A} (a : A) : Eff S A := fun σ => (Normal a, σ).

Definition throw {S A} (e : Thrown) : Eff S A := fun σ => (Throw e, σ).

Definition bind {S A B} (m : Eff S A) (k : A -> Eff S B) : Eff S B :=
  fun σ =>
    match m σ with
    | (Normal a, σ') => k a σ'
    | (Throw e, σ') => (Throw e, σ')
    end.

(** [try { body } catch (error) { handler }] *)
Definition try_catch {S A} (body : Eff S A) (handler : Thrown -> Eff S A)
  : Eff S A :=
  fun σ =>
    match body σ with
    | (Normal a, σ') => (Normal a, σ')
    | (Throw e, σ') => handler e σ'
    end.

Definition gets {S A} (f : S -> A) : Eff S A := fun σ => (Normal (f σ), σ).

Definition modify {S} (f : S -> S) : Eff S unit := fun σ => (Normal tt, f σ).

(** [await] of a collaborator's promise whose settlement is [c]. *)
Definition await {S A} (c : Completion A) : Eff S A := fun σ => (c, σ).

End JS.

Import JS.

#[global] Instance Eff_ret {S} : MRet (Eff S) := fun A => @ret S A.
#[global] Instance Eff_bind {S} : MBind (Eff S) := fun A B k m => @bind S A B m k.

(** The body of a [NextResponse.json(body, { status })]. *)
Record Response (Body : Type) : Type := mkResponse {
  body : Body;
  status : Z
}.
Arguments mkResponse {Body} body status.
Arguments body {Body} r.
Arguments status {Body} r.

(** ** The lesson upsert handler (api/upsert-lesson/route.ts) *)

Module Upsert.

Section Handler.

(** The embedding vector, a [number[]] the handler passes on untouched. *)
Context {Embedding : Type}.

(** [id?: string | number] *)
Inductive LessonId : Type :=
| IdString (s : string)
| IdNumber (n : Z).

(** [interface LessonUpsertRequest].  [content] is what the parsed body
    holds under that key, whatever its type: the handler checks it at run
    time. *)
Record LessonUpsertRequest : Type := mkRequest {
  id : option LessonId;
  content : JSValue;
  metadata : option (gmap string JSValue)
}.

(** The vector handed to [pineconeNamespace.upsert]. *)
Record Vector : Type := mkVector {
  vector_id : string;
  values : Embedding;
  vector_metadata : gmap string JSValue
}.

(** Calls to the collaborators, in the order they are made. *)
Inductive Call : Type :=
| EmbeddingsCreate (model input : string)
| Uuidv4
| NamespaceUpsert (vectors : list Vector).

(** What the collaborators answer during one request. *)
Record World : Type := mkWorld {
  (** [openaiClient.embeddings.create(...)] followed by
      [response.data[0].embedding] *)
  embeddings_create : string -> Completion Embedding;
  (** [uuidv4()] *)
  uuidv4 : string;
  (** [new Date().toISOString()] *)
  Date_toISOString : string;
  (** [pineconeNamespace.upsert(...)] *)
  namespace_upsert : list Vector -> Completion unit
}.

Definition log (c : Call) : Eff (list Call) unit :=
  modify (fun calls => calls ++ [c]).

(** [ { ...src } ] inside an object literal: every own property of [src] is
    defined on the object under construction, replacing a property of the
    same key defined earlier in the literal. *)
Definition spread (src obj : gmap string JSValue) : gmap string JSValue :=
  src ∪ obj.

(** A property [key: v] of an object literal. *)
Definition prop (key : string) (v : JSValue) (obj : gmap string JSValue)
  : gmap string JSValue :=
  <[key := v]> obj.

(** [text.replace(/\s\s+/g, ' ').trim()] *)
Definition cleanText (text : string) : string :=
  trim (replace_ws_runs false text).

Definition getEmbedding (w : World) (text : string)
  : Eff (list Call) Embedding :=
  let cleanedText := cleanText text in
  if negb (str_truthy cleanedText) then
    throw (ErrorObject "Cannot generate embedding for empty text.")
  else
    try_catch
      (log (EmbeddingsCreate "text-embedding-ada-002" cleanedText);;
       await (embeddings_create w cleanedText))
      (fun error =>
         throw (ErrorObject
                  ("Failed to get embedding: "
                   +:+ message_or "Unknown error" error))).

(** ToBoolean of [lessonData.id]. *)
Definition id_truthy (i : option LessonId) : bool :=
  match i with
  | None => false
  | Some (IdString s) => str_truthy s
  | Some (IdNumber n) => negb (n =? 0)%Z
  end.

(** [lessonData.id || uuidv4()] *)
Definition lessonId_of (w : World) (i : option LessonId)
  : Eff (list Call) LessonId :=
  match i with
  | Some v => if id_truthy i then mret v
              else (log Uuidv4;; mret (IdString (uuidv4 w)))
  | None => log Uuidv4;; mret (IdString (uuidv4 w))
  end.

(** [typeof lessonId === 'number' ? lessonId.toString() : lessonId] *)
Definition stringId_of (lessonId : LessonId) : string :=
  match lessonId with
  | IdNumber n => Number_toString n
  | IdString s => s
  end.

(** The [metadata] object literal of the vector:
    [{ content: lessonData.content, ...(lessonData.metadata || {}),
       lastUpdated: new Date().toISOString() }] *)
Definition metadata_literal (w : World) (lessonData : LessonUpsertRequest)
  : gmap string JSValue :=
  prop "lastUpdated" (JSString (Date_toISOString w))
    (spread (default ∅ (metadata lessonData))
       (prop "content" (content lessonData) ∅)).

Inductive Body : Type :=
| ErrorBody (error : string)
| UpsertedBody (message id : string).

Definition POST (w : World) (lessonData : LessonUpsertRequest)
  : Eff (list Call) (Response Body) :=
  try_catch
    (if negb (truthy (content lessonData))
        || negb (String.eqb (typeof (content lessonData)) "string")
     then
       mret (mkResponse
               (ErrorBody "Invalid request: content field is required and must be a string.")
               400)
     else
       match content lessonData with
       | JSString text =>
           embedding ← getEmbedding w text;
           lessonId ← lessonId_of w (id lessonData);
           let stringId := stringId_of lessonId in
           let vectorToUpsert :=
             {| vector_id := stringId;
                values := embedding;
                vector_metadata := metadata_literal w lessonData |} in
           log (NamespaceUpsert [vectorToUpsert]);;
           await (namespace_upsert w [vectorToUpsert]);;
           mret (mkResponse
                   (UpsertedBody
                      ("Successfully upserted lesson with ID: " +:+ stringId)
                      stringId)
                   200)
       | _ =>
           (* not reached: [typeof] is "string" on a [JSString] only *)
           throw NotAnError
       end)
    (fun error =>
       mret (mkResponse
               (ErrorBody
                  ("There was an error processing your request: "
                   +:+ message_or "Unknown error" error))
               500)).

(** Running the handler on a request: the response and the calls made. *)
Definition handle (w : World) (lessonData : LessonUpsertRequest)
  : Response Body * list Call :=
  match POST w lessonData [] with
  | (Normal r, calls) => (r, calls)
  | (Throw _, calls) =>
      (* not reached: the handler catches every throw *)
      (mkResponse (ErrorBody "") 500, calls)
  end.

(** The vector a run builds once the embedding [e] is there. *)
Definition vector_literal (w : World) (lessonData : LessonUpsertRequest)
    (e : Embedding) : Vector :=
  {| vector_id :=
       stringId_of
         (if id_truthy (id lessonData)
          then default (IdString (uuidv4 w)) (id lessonData)
          else IdString (uuidv4 w));
     values := e;
     vector_metadata := metadata_literal w lessonData |}.

(** The vectors written to the namespace by a run. *)
Definition upserted (calls : list Call) : list Vector :=
  flat_map (fun c => match c with NamespaceUpsert vs => vs | _ => [] end) calls.

(** Was the embedding collaborator called? *)
Definition is_embedding_call (c : Call) : bool :=
  match c with EmbeddingsCreate _ _ => true | _ => false end.

End Handler.

Arguments Vector : clear implicits.
Arguments Call : clear implicits.
Arguments World : clear implicits.

End Upsert.

(** ** The chat handler (api/chat/route.ts) *)

Module Chat.

(** [HumanMessage | AIMessage] *)
Inductive BaseMessage : Type :=
| HumanMessage (content : string)
| AIMessage (content : string).

(** One element of the [messages] array of a request. *)
Record ChatMessage : Type := mkChatMessage {
  role : option string;
  content : option string
}.

(** The parsed request body; [None] is an absent key. *)
Record ChatRequest : Type := mkRequest {
  messages : option (list ChatMessage);
  userId : option string;
  lessonIds : option (list string)
}.

(** The store [PineconeStore.fromExistingIndex] returns. *)
Record VectorStore : Type := mkVectorStore {
  namespace : string;
  textKey : string;
  store_filter : JSValue
}.

(** [vectorStore.asRetriever({ k, filter })] *)
Record Retriever : Type := mkRetriever {
  vectorStore : VectorStore;
  k : nat;
  filter : JSValue
}.

(** A tool of the executor, as the handler sees it through its cast to
    [interface RetrieverToolWithFilter].  [retriever] is the property of that
    name, which the tools [createRetrieverTool] returns do not have;
    [captured_retriever] is the retriever the function of such a tool closes
    over: retrieval runs with it, and no property of the tool gives access to
    it. *)
Record Tool : Type := mkTool {
  name : string;
  description : string;
  retriever : option Retriever;
  captured_retriever : Retriever
}.

(** The [AgentExecutor], as far as the handler reads or writes it.  The
    agent runnable itself stays with the collaborator; it refers to the very
    tool objects listed here. *)
Record AgentExecutor : Type := mkAgentExecutor {
  tools : list Tool;
  verbose : bool
}.

(** [interface ChatSession] *)
Record ChatSession : Type := mkChatSession {
  agentExecutor : AgentExecutor;
  chatHistory : list BaseMessage
}.

(** One entry of [result.intermediateSteps]. *)
Record AgentStep : Type := mkAgentStep {
  action : string;
  observation : string
}.

(** What [agentExecutor.invoke] resolves to. *)
Record AgentResult : Type := mkAgentResult {
  output : option string;
  intermediateSteps : option (list AgentStep)
}.

(** Calls to the collaborators, in the order they are made. *)
Inductive Call : Type :=
| FromExistingIndex (filter : JSValue)
| CreateOpenAIToolsAgent (tools : list Tool)
| Invoke (executor : AgentExecutor) (input : string)
         (chat_history : list BaseMessage).

(** What the collaborators answer during one request. *)
Record World : Type := mkWorld {
  (** does [PineconeStore.fromExistingIndex] resolve? *)
  fromExistingIndex : JSValue -> Completion unit;
  (** does [createOpenAIToolsAgent] resolve? *)
  createOpenAIToolsAgent : list Tool -> Completion unit;
  (** [agentExecutor.invoke({ input, chat_history })] *)
  invoke : AgentExecutor -> string -> list BaseMessage -> Completion AgentResult
}.

(** The process-wide state: the session objects, the map
    [conversationHistories] from user ids to references to them, and the
    log of collaborator calls. *)
Record Server : Type := mkServer {
  heap : gmap positive ChatSession;
  conversationHistories : gmap string positive;
  calls : list Call
}.

Definition initial : Server :=
  {| heap := ∅; conversationHistories := ∅; calls := [] |}.

Definition log (c : Call) : Eff Server unit :=
  modify (fun σ => {| heap := heap σ;
                      conversationHistories := conversationHistories σ;
                      calls := calls σ ++ [c] |}).

(** A new session object; the result is the reference to it. *)
Definition alloc (s : ChatSession) : Eff Server positive :=
  fun σ =>
    let l := fresh (dom (heap σ)) in
    (Normal l, {| heap := <[l := s]> (heap σ);
                  conversationHistories := conversationHistories σ;
                  calls := calls σ |}).

(** Reading the object behind a reference. *)
Definition deref (l : positive) : Eff Server ChatSession :=
  fun σ =>
    match heap σ !! l with
    | Some s => (Normal s, σ)
    | None => (Throw NotAnError, σ)
    end.

(** Mutating the object behind a reference in place. *)
Definition update (l : positive) (f : ChatSession -> ChatSession)
  : Eff Server unit :=
  modify (fun σ => {| heap := alter f l (heap σ);
                      conversationHistories := conversationHistories σ;
                      calls := calls σ |}).

(** [conversationHistories.get(userId)] *)
Definition Map_get (userId : string) : Eff Server (option positive) :=
  gets (fun σ => conversationHistories σ !! userId).

(** [conversationHistories.set(userId, userSession)] *)
Definition Map_set (userId : string) (l : positive) : Eff Server unit :=
  modify (fun σ => {| heap := heap σ;
                      conversationHistories := <[userId := l]> (conversationHistories σ);
                      calls := calls σ |}).

(** [{ id: { $in: lessonIds } }] *)
Definition id_in (lessonIds : list string) : JSValue :=
  JSObject {[ "id" := JSObject {[ "$in" := JSArray (JSString <$> lessonIds) ]} ]}.

(** [lessonIds.length > 0 ? { id: { $in: lessonIds } } : undefined] *)
Definition metadataFilter_of (lessonIds : list string) : JSValue :=
  if (0 <? length lessonIds)%nat then id_in lessonIds else JSUndefined.

Definition tool_description : string :=
  "Search for information about Fusion 360. This tool should be used specifically for queries related to Fusion 360 CAD software - its features, workflows, or technical details. Only use this tool if the query is specifically about Fusion 360 or 3D modeling.".

(** The retriever tool [createNewUserSession] builds:
    [createRetrieverTool(retriever, { name, description })], where the
    retriever has [k: 3] and the filter, over a vector store configured with
    the same filter.  The tool closes over the retriever and has no property
    [retriever]. *)
Definition retrieverTool_of (metadataFilter : JSValue) : Tool :=
  let vectorStore :=
    {| namespace := "ns1"; textKey := "content";
       store_filter := metadataFilter |} in
  let retriever :=
    {| vectorStore := vectorStore; k := 3; filter := metadataFilter |} in
  {| name := "fusion360_search";
     description := tool_description;
     retriever := None;
     captured_retriever := retriever |}.

(** The session object [createNewUserSession] returns. *)
Definition new_session (metadataFilter : JSValue) : ChatSession :=
  let retrieverTool := retrieverTool_of metadataFilter in
  let agentExecutor := {| tools := [retrieverTool]; verbose := true |} in
  {| agentExecutor := agentExecutor; chatHistory := [] |}.

Definition createNewUserSession (w : World) (metadataFilter : JSValue)
  : Eff Server positive :=
  log (FromExistingIndex metadataFilter);;
  await (fromExistingIndex w metadataFilter);;
  let retrieverTool := retrieverTool_of metadataFilter in
  log (CreateOpenAIToolsAgent [retrieverTool]);;
  await (createOpenAIToolsAgent w [retrieverTool]);;
  alloc (new_session metadataFilter).

(** [tools.findIndex(p)], [None] for -1. *)
Fixpoint findIndex {A} (p : A -> bool) (l : list A) : option nat :=
  match l with
  | [] => None
  | x :: r => if p x then Some 0%nat else S <$> findIndex p r
  end.

(** [currentRetrieverTool.retriever.filter = metadataFilter], guarded by
    [if (currentRetrieverTool.retriever)]. *)
Definition set_retriever_filter (metadataFilter : JSValue) (t : Tool) : Tool :=
  match retriever t with
  | Some r =>
      {| name := name t;
         description := description t;
         retriever := Some {| vectorStore := vectorStore r;
                              k := k r;
                              filter := metadataFilter |};
         captured_retriever := captured_retriever t |}
  | None => t
  end.

(** The effect of [updateExistingSessionFilters] on the session object. *)
Definition with_filter (metadataFilter : JSValue) (userSession : ChatSession)
  : ChatSession :=
  if negb (truthy metadataFilter) then userSession
  else
    let tools := tools (agentExecutor userSession) in
    match findIndex (fun tool => String.eqb (name tool) "fusion360_search") tools with
    | Some retrieverToolIndex =>
        {| agentExecutor :=
             {| tools := alter (set_retriever_filter metadataFilter)
                           retrieverToolIndex tools;
                verbose := verbose (agentExecutor userSession) |};
           chatHistory := chatHistory userSession |}
    | None => userSession
    end.

Definition updateExistingSessionFilters (userSession : positive)
    (metadataFilter : JSValue) : Eff Server unit :=
  update userSession (with_filter metadataFilter).

(** [chatHistory.push(m)] *)
Definition push (m : BaseMessage) (s : ChatSession) : ChatSession :=
  {| agentExecutor := agentExecutor s; chatHistory := chatHistory s ++ [m] |}.

(** [l.slice(-n)]: the last [n] elements, all of [l] when it is shorter. *)
Definition slice_last {A} (n : nat) (l : list A) : list A :=
  drop (length l - n) l.

(** [if (chatHistory.length > 10) chatHistory = chatHistory.slice(-10)] *)
Definition trim_history (s : ChatSession) : ChatSession :=
  if (10 <? length (chatHistory s))%nat then
    {| agentExecutor := agentExecutor s;
       chatHistory := slice_last 10 (chatHistory s) |}
  else s.

Definition fallback : string :=
  "I couldn't generate a response. Please try again.".

(** [result.output || fallback] *)
Definition responseText_of (result : AgentResult) : string :=
  match output result with
  | Some o => if str_truthy o then o else fallback
  | None => fallback
  end.

(** [result.intermediateSteps?.length > 0] *)
Definition usedRetrieval_of (result : AgentResult) : bool :=
  match intermediateSteps result with
  | Some steps => (0 <? length steps)%nat
  | None => false
  end.

Record Debug : Type := mkDebug {
  usedRetrieval : bool;
  appliedFilter : JSValue
}.

Inductive Body : Type :=
| ErrorBody (error : string)
| ChatBody (response : string) (debug : Debug).

(** [!messages || !messages.length] *)
Definition no_messages (messages : option (list ChatMessage)) : bool :=
  match messages with
  | None => true
  | Some l => (length l =? 0)%nat
  end.

(** [!latestMessage || !latestMessage.content] *)
Definition invalid_message (latestMessage : option ChatMessage) : bool :=
  match latestMessage with
  | None => true
  | Some m => match content m with
              | None => true
              | Some c => negb (str_truthy c)
              end
  end.

(** [messages[messages.length - 1]] *)
Definition latestMessage_of (messages : option (list ChatMessage))
  : option ChatMessage :=
  messages ≫= fun l => l !! (length l - 1)%nat.

(** [userId = 'default-user'] in the destructuring of the body *)
Definition userId_of (req : ChatRequest) : string :=
  default "default-user" (userId req).

(** [lessonIds = []] in the destructuring of the body *)
Definition lessonIds_of (req : ChatRequest) : list string :=
  default [] (lessonIds req).

(** [latestMessage.content], read once the message passed the check *)
Definition userMessage_of (req : ChatRequest) : string :=
  default "" (latestMessage_of (messages req) ≫= content).

(** The two checks a request has to pass. *)
Definition accepted (req : ChatRequest) : bool :=
  negb (no_messages (messages req))
  && negb (invalid_message (latestMessage_of (messages req))).

(** The history after a turn: both messages pushed, then the trim. *)
Definition after_turn (userMessage responseText : string) (s : ChatSession)
  : ChatSession :=
  trim_history (push (AIMessage responseText)
                  (push (HumanMessage userMessage) s)).

Definition error_500 (error : Thrown) : Response Body :=
  let errorMessage := message_or "An unknown error occurred" error in
  mkResponse
    (ErrorBody ("There was an error processing your request: " +:+ errorMessage))
    500.

Definition POST (w : World) (req : ChatRequest) : Eff Server (Response Body) :=
  try_catch
    (let messages := messages req in
     let userId := userId_of req in
     let lessonIds := lessonIds_of req in
     if no_messages messages then
       mret (mkResponse (ErrorBody "No messages found") 400)
     else
       let latestMessage := latestMessage_of messages in
       if invalid_message latestMessage then
         mret (mkResponse (ErrorBody "Invalid message format") 400)
       else
         let userMessage := userMessage_of req in
         existing ← Map_get userId;
         let metadataFilter := metadataFilter_of lessonIds in
         userSession ←
           match existing with
           | None =>
               userSession ← createNewUserSession w metadataFilter;
               Map_set userId userSession;;
               mret userSession
           | Some userSession =>
               updateExistingSessionFilters userSession metadataFilter;;
               mret userSession
           end;
         session ← deref userSession;
         log (Invoke (agentExecutor session) userMessage (chatHistory session));;
         result ← await (invoke w (agentExecutor session) userMessage
                           (chatHistory session));
         let responseText := responseText_of result in
         update userSession (push (HumanMessage userMessage));;
         update userSession (push (AIMessage responseText));;
         update userSession trim_history;;
         mret (mkResponse
                 (ChatBody responseText
                    {| usedRetrieval := usedRetrieval_of result;
                       appliedFilter := metadataFilter |})
                 200))
    (fun error => mret (error_500 error)).

(** One request served from state [σ]: the response and the next state. *)
Definition handle (w : World) (req : ChatRequest) (σ : Server)
  : Response Body * Server :=
  match POST w req σ with
  | (Normal r, σ') => (r, σ')
  | (Throw _, σ') =>
      (* not reached: the handler catches every throw *)
      (mkResponse (ErrorBody "") 500, σ')
  end.

(** Requests served one after the other. *)
Fixpoint serve (reqs : list (World * ChatRequest)) (σ : Server)
  : list (Response Body) * Server :=
  match reqs with
  | [] => ([], σ)
  | (w, req) :: rest =>
      let '(r, σ') := handle w req σ in
      let '(rs, σ'') := serve rest σ' in
      (r :: rs, σ'')
  end.

(** The session object registered for a user. *)
Definition session_of (σ : Server) (userId : string) : option ChatSession :=
  conversationHistories σ !! userId ≫= fun l => heap σ !! l.

(** The filter on the [retriever] property of the session's search tool,
    the one [updateExistingSessionFilters] writes; [None] when there is no
    such tool or the tool has no such property. *)
Definition session_filter (s : ChatSession) : option JSValue :=
  t ← List.find (fun tool => String.eqb (name tool) "fusion360_search")
        (tools (agentExecutor s));
  filter <$> retriever t.

(** The filter retrieval runs with: the one of the retriever the session's
    search tool closes over. *)
Definition filter_in_force (s : ChatSession) : option JSValue :=
  (fun t => filter (captured_retriever t))
    <$> List.find (fun tool => String.eqb (name tool) "fusion360_search")
          (tools (agentExecutor s)).

(** States the server can be in: the initial one and those reached by
    serving requests. *)
Inductive reachable : Server -> Prop :=
| reachable_initial : reachable initial
| reachable_handle w req σ :
    reachable σ -> reachable (snd (handle w req σ)).

(** [l] is made of (user, assistant) pairs. *)
Fixpoint alternating (l : list BaseMessage) : bool :=
  match l with
  | [] => true
  | HumanMessage _ :: AIMessage _ :: r => alternating r
  | _ => false
  end.

Definition is_invoke (c : Call) : bool :=
  match c with Invoke _ _ _ => true | _ => false end.

(** Every session object of the state satisfies [P]. *)
Definition all_sessions (P : ChatSession → Prop) (σ : Server) : Prop :=
  ∀ l s, heap σ !! l = Some s → P s.

(** Every session object holds a history made of (user, assistant) pairs. *)
Definition histories_alternate (σ : Server) : Prop :=
  all_sessions (fun s => alternating (chatHistory s) = true) σ.

(** Every entry of [conversationHistories] refers to a session object. *)
Definition entries_live (σ : Server) : Prop :=
  ∀ u l, conversationHistories σ !! u = Some l → is_Some (heap σ !! l).

(** The chat history of a user, empty when the user has no session. *)
Definition history_of (σ : Server) (userId : string) : list BaseMessage :=
  default [] (chatHistory <$> session_of σ userId).

(** The two messages of a turn, as its request and its response show them;
    an error response shows none. *)
Definition exchange (req : ChatRequest) (r : Response Body)
  : list BaseMessage :=
  match body r with
  | ChatBody response _ =>
      [HumanMessage (userMessage_of req); AIMessage response]
  | ErrorBody _ => []
  end.

(** [debug.appliedFilter] of a response, when it has a debug object. *)
Definition appliedFilter_of (r : Response Body) : option JSValue :=
  match body r with
  | ChatBody _ debug => Some (appliedFilter debug)
  | ErrorBody _ => None
  end.

(** The messages of successive turns, oldest first. *)
Definition transcript (reqs : list (World * ChatRequest))
    (rs : list (Response Body)) : list BaseMessage :=
  flat_map (fun x => exchange (snd (fst x)) (snd x)) (zip reqs rs).

(** Two tools that differ in the filter of their [retriever] property at
    most. *)
Definition same_tool_but_filter (t t' : Tool) : Prop :=
  name t = name t' ∧ description t = description t' ∧
  captured_retriever t = captured_retriever t' ∧
  match retriever t, retriever t' with
  | Some r, Some r' => vectorStore r = vectorStore r' ∧ k r = k r'
  | None, None => True
  | _, _ => False
  end.

(** Two sessions that differ in retriever filters at most. *)
Definition same_session_but_filter (s s' : ChatSession) : Prop :=
  chatHistory s = chatHistory s' ∧
  verbose (agentExecutor s) = verbose (agentExecutor s') ∧
  Forall2 same_tool_but_filter
    (tools (agentExecutor s)) (tools (agentExecutor s')).

End Chat.

(** ** Shapes of texts, sessions and states *)

Module Shape.

Import Chat.

(** Does [s] begin with a whitespace code unit? *)
Definition starts_with_whitespace (s : string) : bool :=
  match s with
  | String c _ => is_whitespace c
  | EmptyString => false
  end.

(** Does [s] end with a whitespace code unit? *)
Fixpoint ends_with_whitespace (s : string) : bool :=
  match s with
  | EmptyString => false
  | String c r =>
      match r with
      | EmptyString => is_whitespace c
      | String _ _ => ends_with_whitespace r
      end
  end.

(** No two neighbouring code units of [s] are both whitespace. *)
Fixpoint no_adjacent_whitespace (s : string) : bool :=
  match s with
  | EmptyString => true
  | String c r =>
      negb (is_whitespace c && starts_with_whitespace r)
      && no_adjacent_whitespace r
  end.

(** The code units of [s] that are not whitespace, in order. *)
Fixpoint non_whitespace (s : string) : string :=
  match s with
  | EmptyString => EmptyString
  | String c r =>
      if is_whitespace c then non_whitespace r
      else String c (non_whitespace r)
  end.

(** No two users of the map share a session object. *)
Definition entries_distinct (σ : Server) : Prop :=
  ∀ u u' l,
    conversationHistories σ !! u = Some l →
    conversationHistories σ !! u' = Some l → u = u'.

(** A filter the handler derives from some [lessonIds]: [undefined], or
    [{ id: { $in: ids } }] for a non-empty [ids]. *)
Definition derived_filter (f : JSValue) : Prop :=
  f = JSUndefined ∨ ∃ ids, ids ≠ [] ∧ f = id_in ids.

(** A session whose executor is as [createNewUserSession] built it from a
    derived filter: verbose, with the one search tool, which has no
    [retriever] property and closes over the retriever of [k: 3] over the
    store of namespace [ns1] and text key [content], store and retriever both
    carrying that filter. *)
Definition standard_session (s : ChatSession) : Prop :=
  ∃ f,
    derived_filter f ∧
    agentExecutor s =
      {| tools :=
           [ {| name := "fusion360_search";
                description := tool_description;
                retriever := None;
                captured_retriever :=
                  {| vectorStore :=
                       {| namespace := "ns1"; textKey := "content";
                          store_filter := f |};
                     k := 3;
                     filter := f |} |} ];
         verbose := true |}.

(** The content of a message of either kind. *)
Definition message_content (m : BaseMessage) : string :=
  match m with
  | HumanMessage c => c
  | AIMessage c => c
  end.

(** The calls of a log that are invocations of the agent. *)
Definition invocations (calls : list Call) : list Call :=
  List.filter is_invoke calls.

End Shape.

(** ** Sample requests and collaborators *)

Module Samples.

(** Collaborators that all answer: an embedding, a generated id, a clock
    reading, a successful write. *)
Definition upsert_world : Upsert.World (list Z) :=
  {| Upsert.embeddings_create := fun _ => Normal [12; -7; 3]%Z;
     Upsert.uuidv4 := "9b2f7c1e-5d3a-4e8b-a6f0-1c2d3e4f5a6b";
     Upsert.Date_toISOString := "2025-03-01T09:30:00.000Z";
     Upsert.namespace_upsert := fun _ => Normal tt |}.

(** [{ "content": "Sketch basics", "metadata": { "content": "override" } }] *)
Definition lesson_with_content_key : Upsert.LessonUpsertRequest :=
  {| Upsert.id := Some (Upsert.IdString "1011");
     Upsert.content := JSString "Sketch basics";
     Upsert.metadata := Some {[ "content" := JSString "override" ]} |}.

(** [{ "id": "", "content": "Sketch basics" }] *)
Definition lesson_with_empty_id : Upsert.LessonUpsertRequest :=
  {| Upsert.id := Some (Upsert.IdString "");
     Upsert.content := JSString "Sketch basics";
     Upsert.metadata := None |}.

(** [{ "id": 1011, "content": "Sketch basics", "metadata": { "topic": "CAD" } }] *)
Definition lesson_with_numeric_id : Upsert.LessonUpsertRequest :=
  {| Upsert.id := Some (Upsert.IdNumber 1011);
     Upsert.content := JSString "Sketch basics";
     Upsert.metadata := Some {[ "topic" := JSString "CAD" ]} |}.

(** [{ "id": 0, "content": "Sketch basics" }] *)
Definition lesson_with_id_zero : Upsert.LessonUpsertRequest :=
  {| Upsert.id := Some (Upsert.IdNumber 0);
     Upsert.content := JSString "Sketch basics";
     Upsert.metadata := None |}.

(** [{ "content": " \t\n " }], whitespace only *)
Definition lesson_blank : Upsert.LessonUpsertRequest :=
  {| Upsert.id := None;
     Upsert.content :=
       JSString (String " " (String (ascii_of_nat 9)
                   (String (ascii_of_nat 10) (String " " EmptyString))));
     Upsert.metadata := None |}.

(** [{ "id": "1011" }], no content *)
Definition lesson_without_content : Upsert.LessonUpsertRequest :=
  {| Upsert.id := Some (Upsert.IdString "1011");
     Upsert.content := JSUndefined;
     Upsert.metadata := None |}.

(** The embedding service rejects every request. *)
Definition embedding_down_world : Upsert.World (list Z) :=
  {| Upsert.embeddings_create := fun _ => Throw (ErrorObject "401 invalid api key");
     Upsert.uuidv4 := "9b2f7c1e-5d3a-4e8b-a6f0-1c2d3e4f5a6b";
     Upsert.Date_toISOString := "2025-03-01T09:30:00.000Z";
     Upsert.namespace_upsert := fun _ => Normal tt |}.

(** The vector store rejects every write, with something that is no
    [Error]. *)
Definition store_down_world : Upsert.World (list Z) :=
  {| Upsert.embeddings_create := fun _ => Normal [12; -7; 3]%Z;
     Upsert.uuidv4 := "9b2f7c1e-5d3a-4e8b-a6f0-1c2d3e4f5a6b";
     Upsert.Date_toISOString := "2025-03-01T09:30:00.000Z";
     Upsert.namespace_upsert := fun _ => Throw NotAnError |}.

(** [{ content: "  Sketch   basics ", metadata: { topic: "CAD",
       lastUpdated: "never" } }] *)
Definition lesson_untidy : Upsert.LessonUpsertRequest :=
  {| Upsert.id := None;
     Upsert.content := JSString "  Sketch   basics ";
     Upsert.metadata :=
       Some {[ "topic" := JSString "CAD"; "lastUpdated" := JSString "never" ]} |}.

(** An agent that answers every message and reports one retrieval step. *)
Definition chat_world : Chat.World :=
  {| Chat.fromExistingIndex := fun _ => Normal tt;
     Chat.createOpenAIToolsAgent := fun _ => Normal tt;
     Chat.invoke := fun _ input _ =>
       Normal {| Chat.output := Some ("Answer to: " +:+ input);
                 Chat.intermediateSteps :=
                   Some [ {| Chat.action := "fusion360_search";
                             Chat.observation := "Sketch basics" |} ] |} |}.

(** An agent whose result has neither output nor intermediate steps. *)
Definition silent_world : Chat.World :=
  {| Chat.fromExistingIndex := fun _ => Normal tt;
     Chat.createOpenAIToolsAgent := fun _ => Normal tt;
     Chat.invoke := fun _ _ _ =>
       Normal {| Chat.output := None; Chat.intermediateSteps := None |} |}.

(** An agent whose invocation rejects. *)
Definition failing_world : Chat.World :=
  {| Chat.fromExistingIndex := fun _ => Normal tt;
     Chat.createOpenAIToolsAgent := fun _ => Normal tt;
     Chat.invoke := fun _ _ _ => Throw (ErrorObject "429 rate limit") |}.

(** [{ messages: [{ role: "user", content }], userId: "u1", lessonIds }] *)
Definition ask (content : string) (lessonIds : option (list string))
  : Chat.ChatRequest :=
  {| Chat.messages :=
       Some [ {| Chat.role := Some "user"; Chat.content := Some content |} ];
     Chat.userId := Some "u1";
     Chat.lessonIds := lessonIds |}.

(** [{ messages: [], userId: "u1" }] *)
Definition ask_nothing : Chat.ChatRequest :=
  {| Chat.messages := Some []; Chat.userId := Some "u1";
     Chat.lessonIds := None |}.

(** [{ messages: [{ role: "user" }], userId: "u1" }] *)
Definition ask_without_content : Chat.ChatRequest :=
  {| Chat.messages :=
       Some [ {| Chat.role := Some "user"; Chat.content := None |} ];
     Chat.userId := Some "u1";
     Chat.lessonIds := None |}.

(** A request of any user. *)
Definition ask_as (userId content : string) (lessonIds : option (list string))
  : Chat.ChatRequest :=
  {| Chat.messages :=
       Some [ {| Chat.role := Some "user"; Chat.content := Some content |} ];
     Chat.userId := Some userId;
     Chat.lessonIds := lessonIds |}.

(** The vector store cannot be opened. *)
Definition index_down_world : Chat.World :=
  {| Chat.fromExistingIndex := fun _ => Throw (ErrorObject "index not found");
     Chat.createOpenAIToolsAgent := fun _ => Normal tt;
     Chat.invoke := fun _ input _ =>
       Normal {| Chat.output := Some input; Chat.intermediateSteps := None |} |}.

(** Eleven turns of user [u1]. *)
Definition eleven_turns : list (Chat.World * Chat.ChatRequest) :=
  (fun m => (chat_world, ask m None))
    <$> ["m1"; "m2"; "m3"; "m4"; "m5"; "m6"; "m7"; "m8"; "m9"; "m10"; "m11"].

(** The state after one turn of [u1] restricted to lessons 1001 and 1002. *)
Definition after_first_turn : Chat.Server :=
  snd (Chat.handle chat_world (ask "hi" (Some ["1001"; "1002"])) Chat.initial).

(** The state after a turn of [u1] restricted to two lessons and a turn of
    [u2]. *)
Definition two_users : Chat.Server :=
  snd (Chat.handle chat_world (ask_as "u2" "hello" None) after_first_turn).

(** Two later requests of [u1], each with lesson ids of its own. *)
Definition retargeting_turns : list (Chat.World * Chat.ChatRequest) :=
  [ (chat_world, ask_as "u1" "next" (Some ["2001"]));
    (silent_world, ask_as "u1" "and then?" (Some ["2002"; "2003"])) ].

(** Three later requests: [u2] asks twice, [u1] asks without lesson ids. *)
Definition later_turns : list (Chat.World * Chat.ChatRequest) :=
  [ (chat_world, ask_as "u2" "more" (Some ["2001"]));
    (silent_world, ask_as "u1" "and then?" None);
    (failing_world, ask_as "u2" "again" None) ].

End Samples.

(** ** Properties of the handlers *)

(** Unfolds the operations of [Eff]. *)
Ltac eff_unfold :=
  unfold mbind, mret, Eff_bind, Eff_ret, JS.bind, JS.ret, JS.throw,
    JS.try_catch, JS.await, JS.modify, JS.gets in *.

Module JSFacts.

Lemma str_truthy_true s : str_truthy s = true ↔ s ≠ "".
Proof.
  unfold str_truthy.
  destruct (String.eqb_spec s ""); simpl; split; congruence.
Qed.

(** A [try] whose [catch] returns never throws. *)
Lemma try_catch_returns {S A} (body : Eff S A) (h : Thrown → A) σ :
  ∃ a σ', try_catch body (λ error, mret (h error)) σ = (Normal a, σ').
Proof.
  unfold try_catch. destruct (body σ) as [[a|e] σ']; eauto.
Qed.

(** The cleaning of [getEmbedding] on a lesson text. *)
Example cleanText_sample :
  Upsert.cleanText "  Sketch   basics  " = "Sketch basics".
Proof. reflexivity. Qed.

Lemma all_whitespace_replace b s :
  all_whitespace (replace_ws_runs b s) = all_whitespace s.
Proof.
  revert b. induction s as [|c r IH]; intros b; simpl; [reflexivity|].
  destruct (is_whitespace c) eqn:Hc; simpl.
  - destruct b; [apply IH|].
    pose proof (IH true) as IHt. pose proof (IH false) as IHf.
    destruct r as [|d r']; [simpl; now rewrite Hc|].
    destruct (is_whitespace d) eqn:Hd.
    + change (all_whitespace (String " " (replace_ws_runs true (String d r')))
              = all_whitespace (String d r')).
      cbn [all_whitespace]. rewrite IHt. reflexivity.
    + change (all_whitespace (String c (replace_ws_runs false (String d r')))
              = all_whitespace (String d r')).
      cbn [all_whitespace]. rewrite IHf, Hc. reflexivity.
  - now rewrite Hc.
Qed.

Lemma all_whitespace_trimStart s :
  all_whitespace (trimStart s) = all_whitespace s.
Proof.
  induction s as [|c r IH]; simpl; [reflexivity|].
  destruct (is_whitespace c) eqn:Hc; simpl; [exact IH|now rewrite Hc].
Qed.

Lemma trimEnd_empty s : trimEnd s = "" ↔ all_whitespace s = true.
Proof.
  induction s as [|c r IH]; simpl; [tauto|].
  destruct (is_whitespace c); simpl.
  - destruct (String.eqb_spec (trimEnd r) "") as [E|E]; split; intros H.
    + now apply IH.
    + reflexivity.
    + discriminate.
    + apply IH in H. contradiction.
  - split; discriminate.
Qed.

(** The numeral [Number_toString] prints reads back as the number. *)
Lemma Number_toString_parse n :
  Z.of_int <$> NilZero.int_of_string (Number_toString n) = Some n.
Proof.
  unfold Number_toString. destruct n as [|p|p]; [reflexivity| |].
  - rewrite NilZero.isi.
    + simpl. f_equal. apply (DecimalZ.of_to (Z.pos p)).
    + intros [=H]. now apply DecimalPos.Unsigned.to_uint_nonnil in H.
    + discriminate.
  - rewrite NilZero.isi.
    + simpl. f_equal. apply (DecimalZ.of_to (Z.neg p)).
    + discriminate.
    + intros [=H]. now apply DecimalPos.Unsigned.to_uint_nonnil in H.
Qed.

(** Cleaning leaves nothing exactly when the text is whitespace only. *)
Lemma cleanText_empty text :
  Upsert.cleanText text = "" ↔ all_whitespace text = true.
Proof.
  unfold Upsert.cleanText, trim.
  rewrite trimEnd_empty, all_whitespace_trimStart.
  now rewrite all_whitespace_replace.
Qed.

End JSFacts.

Module UpsertFacts.

Import Upsert JSFacts.

Section Runs.

Context {Embedding : Type}.
Implicit Types (w : World Embedding) (req : LessonUpsertRequest).

(** The handler answers every request: nothing escapes its [catch]. *)
Lemma upsert_POST_returns w req calls :
  ∃ r calls', POST w req calls = (Normal r, calls').
Proof. apply try_catch_returns. Qed.

Lemma upsert_invalid w req :
  (∀ text, content req = JSString text → text = "") →
  handle w req =
    (mkResponse
       (ErrorBody "Invalid request: content field is required and must be a string.")
       400, []).
Proof.
  intros H. unfold handle, POST. eff_unfold.
  destruct (content req) as [| |b|n|s|l|o] eqn:E; simpl; try reflexivity.
  - destruct b; reflexivity.
  - destruct (n =? 0)%Z; reflexivity.
  - rewrite (H s eq_refl). reflexivity.
Qed.

Lemma upsert_blank w req text :
  content req = JSString text → text ≠ "" → cleanText text = "" →
  handle w req =
    (mkResponse
       (ErrorBody "There was an error processing your request: Cannot generate embedding for empty text.")
       500, []).
Proof.
  intros Hc Hne Hcl. unfold handle, POST. rewrite Hc. simpl.
  apply str_truthy_true in Hne. unfold str_truthy in Hne. rewrite Hne. simpl.
  unfold getEmbedding. rewrite Hcl. simpl.
  eff_unfold. simpl. reflexivity.
Qed.

(** A request that passes validation and whose text gets an embedding:
    the calls made, and the response according to the write's outcome. *)
Lemma upsert_embedded w req text e :
  content req = JSString text → text ≠ "" → cleanText text ≠ "" →
  embeddings_create w (cleanText text) = Normal e →
  let v := vector_literal w req e in
  snd (handle w req) =
    [EmbeddingsCreate "text-embedding-ada-002" (cleanText text)]
      ++ (if id_truthy (id req) then [] else [Uuidv4])
      ++ [NamespaceUpsert [v]]
  ∧ fst (handle w req) =
      match namespace_upsert w [v] with
      | Normal _ =>
          mkResponse
            (UpsertedBody
               ("Successfully upserted lesson with ID: " +:+ vector_id v)
               (vector_id v))
            200
      | Throw error =>
          mkResponse
            (ErrorBody
               ("There was an error processing your request: "
                +:+ message_or "Unknown error" error))
            500
      end.
Proof.
  intros Hc Hne Hcl He v. subst v. unfold vector_literal.
  unfold handle, POST. rewrite Hc. simpl.
  apply str_truthy_true in Hne. unfold str_truthy in Hne. rewrite Hne. simpl.
  unfold getEmbedding.
  apply str_truthy_true in Hcl. rewrite Hcl. simpl.
  unfold lessonId_of, log. eff_unfold. simpl. rewrite He.
  destruct (id req) as [[s|n]|]; simpl.
  - destruct (str_truthy s); simpl;
      destruct (namespace_upsert w _) as [[]|err]; simpl; split; reflexivity.
  - destruct (n =? 0)%Z; simpl;
      destruct (namespace_upsert w _) as [[]|err]; simpl; split; reflexivity.
  - destruct (namespace_upsert w _) as [[]|err]; simpl; split; reflexivity.
Qed.

(** A 200 response comes from the path of [upsert_embedded] only. *)
Lemma upsert_200 w req :
  status (fst (handle w req)) = 200%Z →
  ∃ text e,
    content req = JSString text ∧ text ≠ "" ∧ cleanText text ≠ "" ∧
    embeddings_create w (cleanText text) = Normal e ∧
    namespace_upsert w [vector_literal w req e] = Normal tt.
Proof.
  intros H200.
  destruct (content req) as [| |b|n|text|l|o] eqn:Hc;
    try (rewrite upsert_invalid in H200; [discriminate|];
         intros t Ht; rewrite Hc in Ht; discriminate).
  destruct (String.eqb_spec text "") as [->|Hne].
  { rewrite upsert_invalid in H200; [discriminate|].
    intros t Ht. rewrite Hc in Ht. congruence. }
  destruct (String.eqb_spec (cleanText text) "") as [Hcl|Hcl].
  { rewrite (upsert_blank w req text) in H200 by assumption. discriminate. }
  destruct (embeddings_create w (cleanText text)) as [e|err] eqn:He.
  - destruct (upsert_embedded w req text e Hc Hne Hcl He) as [_ Hr].
    rewrite Hr in H200.
    destruct (namespace_upsert w _) as [[]|err] eqn:Hu; [|discriminate].
    exists text, e. repeat split; assumption.
  - exfalso. revert H200. unfold handle, POST. rewrite Hc. simpl.
    apply str_truthy_true in Hne. unfold str_truthy in Hne. rewrite Hne. simpl.
    unfold getEmbedding. apply str_truthy_true in Hcl. rewrite Hcl. simpl.
    unfold log. eff_unfold. simpl. rewrite He. simpl. discriminate.
Qed.

(** The keys of the stored metadata: [lastUpdated] is the handler's, every
    other key is the caller's when the caller gave it, and [content] falls
    back to the lesson text. *)
Lemma metadata_literal_lookup w req key :
  metadata_literal w req !! key =
    if decide (key = "lastUpdated") then Some (JSString (Date_toISOString w))
    else match default ∅ (metadata req) !! key with
         | Some v => Some v
         | None => if decide (key = "content") then Some (content req) else None
         end.
Proof.
  unfold metadata_literal, prop, spread.
  case_decide as Hk; [subst; apply lookup_insert_eq|].
  rewrite lookup_insert_ne by congruence.
  rewrite lookup_union.
  destruct (default ∅ (metadata req) !! key) as [v|].
  - destruct (<["content" := content req]> ∅ !! key); reflexivity.
  - rewrite (left_id None _).
    case_decide as Hc; [subst; apply lookup_insert_eq|].
    rewrite lookup_insert_ne by congruence. apply lookup_empty.
Qed.

(** C2 (as the code has it): when a request succeeds, exactly one vector was
    written; a supplied non-empty string id is its id as given, a supplied
    non-zero number is its id as a decimal numeral (which reads back as that
    number), and no id is generated for either; an absent id or a supplied
    empty string makes the handler generate the id with [uuidv4]. *)
Theorem stored_id_resolution w req :
  status (fst (handle w req)) = 200%Z →
  ∃ v,
    upserted (snd (handle w req)) = [v] ∧
    body (fst (handle w req)) =
      UpsertedBody ("Successfully upserted lesson with ID: " +:+ vector_id v)
        (vector_id v) ∧
    (∀ s, id req = Some (IdString s) → s ≠ "" →
          vector_id v = s ∧ Uuidv4 ∉ snd (handle w req)) ∧
    (∀ n, id req = Some (IdNumber n) → n ≠ 0%Z → safe_integer n →
          vector_id v = Number_toString n ∧
          Z.of_int <$> NilZero.int_of_string (vector_id v) = Some n ∧
          Uuidv4 ∉ snd (handle w req)) ∧
    (id req = None ∨ id req = Some (IdString "") →
          vector_id v = uuidv4 w ∧ Uuidv4 ∈ snd (handle w req)).
Proof.
  intros H200.
  destruct (upsert_200 w req H200) as (text & e & Hc & Hne & Hcl & He & Hu).
  destruct (upsert_embedded w req text e Hc Hne Hcl He) as [Hcalls Hresp].
  cbv zeta in Hcalls, Hresp. rewrite Hu in Hresp.
  exists (vector_literal w req e). rewrite Hcalls, Hresp.
  split; [|split; [reflexivity|]].
  { unfold upserted. simpl. destruct (id_truthy (id req)); reflexivity. }
  unfold vector_literal. simpl.
  split; [|split].
  - intros s Hid Hs. rewrite Hid. simpl.
    apply str_truthy_true in Hs. rewrite Hs. simpl. split; [reflexivity|].
    intros Hin. apply list_elem_of_In in Hin. simpl in Hin.
    destruct Hin as [Hin|[Hin|[]]]; discriminate.
  - intros n Hid Hn _. rewrite Hid. simpl.
    apply Z.eqb_neq in Hn. rewrite Hn. simpl. split; [reflexivity|].
    split; [apply Number_toString_parse|].
    intros Hin. apply list_elem_of_In in Hin. simpl in Hin.
    destruct Hin as [Hin|[Hin|[]]]; discriminate.
  - intros [Hid|Hid]; rewrite Hid; simpl; (split; [reflexivity|]);
      apply list_elem_of_In; simpl; tauto.
Qed.

(** C7: a request whose content is missing, not a string or the empty
    string is answered with 400 and no collaborator is called, the embedding
    one included; a request whose content is a non-empty string that cleaning
    leaves empty is answered with 500, the message being that of the error
    [getEmbedding] throws for empty text, and the embedding collaborator is
    not called either. *)
Theorem content_validation_and_blank_text w req :
  ((∀ text, content req = JSString text → text = "") →
     status (fst (handle w req)) = 400%Z ∧ snd (handle w req) = [])
  ∧
  (∀ text, content req = JSString text → text ≠ "" → cleanText text = "" →
     status (fst (handle w req)) = 500%Z ∧
     body (fst (handle w req)) =
       ErrorBody "There was an error processing your request: Cannot generate embedding for empty text." ∧
     Forall (λ c, is_embedding_call c = false) (snd (handle w req))).
Proof.
  split.
  - intros H. rewrite (upsert_invalid w req H). split; reflexivity.
  - intros text Hc Hne Hcl. rewrite (upsert_blank w req text Hc Hne Hcl).
    repeat split. constructor.
Qed.

End Runs.

(** C1: the request [{ id: "1011", content: "Sketch basics",
    metadata: { content: "override" } }] succeeds, and the metadata of the
    vector it writes has ["override"] under [content], not the lesson text;
    [lastUpdated] is the handler's timestamp. *)
Theorem caller_content_key_replaces_lesson_text :
  content Samples.lesson_with_content_key = JSString "Sketch basics"
  ∧ status (fst (handle Samples.upsert_world Samples.lesson_with_content_key))
    = 200%Z
  ∧ (λ v, vector_metadata v !! "content")
      <$> upserted (snd (handle Samples.upsert_world
                           Samples.lesson_with_content_key))
    = [Some (JSString "override")]
  ∧ (λ v, vector_metadata v !! "lastUpdated")
      <$> upserted (snd (handle Samples.upsert_world
                           Samples.lesson_with_content_key))
    = [Some (JSString "2025-03-01T09:30:00.000Z")].
Proof. vm_compute. repeat split. Qed.

(** C2 fails as stated: the request [{ id: "", content: "Sketch basics" }]
    supplies a string id, succeeds, and the vector it writes has the id
    generated by [uuidv4], not the supplied string. *)
Lemma supplied_empty_id_is_replaced :
  id Samples.lesson_with_empty_id = Some (IdString "")
  ∧ status (fst (handle Samples.upsert_world Samples.lesson_with_empty_id))
    = 200%Z
  ∧ vector_id
      <$> upserted (snd (handle Samples.upsert_world
                           Samples.lesson_with_empty_id))
    = ["9b2f7c1e-5d3a-4e8b-a6f0-1c2d3e4f5a6b"]
  ∧ vector_id
      <$> upserted (snd (handle Samples.upsert_world
                           Samples.lesson_with_empty_id))
    ≠ [stringId_of (IdString "")]
  ∧ Uuidv4 ∈ snd (handle Samples.upsert_world Samples.lesson_with_empty_id).
Proof.
  vm_compute. repeat split; try discriminate.
  apply list_elem_of_In. simpl. tauto.
Qed.

(** The numeric id 0 goes the way of the empty string: the request
    [{ id: 0, content: "Sketch basics" }] is stored under a generated id. *)
Example numeric_zero_id_is_replaced :
  vector_id
    <$> upserted (snd (handle Samples.upsert_world Samples.lesson_with_id_zero))
  = ["9b2f7c1e-5d3a-4e8b-a6f0-1c2d3e4f5a6b"].
Proof. reflexivity. Qed.

(** The numeric id 1011 is stored as ["1011"]. *)
Lemma stored_id_resolution_witness :
  ∃ v, upserted (snd (handle Samples.upsert_world
                        Samples.lesson_with_numeric_id)) = [v]
       ∧ vector_id v = "1011".
Proof.
  destruct (stored_id_resolution Samples.upsert_world
              Samples.lesson_with_numeric_id eq_refl)
    as (v & Hv & _ & _ & Hn & _).
  exists v. split; [exact Hv|].
  destruct (Hn 1011%Z eq_refl) as [Hid _]; [discriminate| |exact Hid].
  unfold safe_integer. split; vm_compute; discriminate.
Defined.

(** Absent content gives 400 with no call; blank content gives 500. *)
Lemma content_validation_and_blank_text_witness :
  (status (fst (handle Samples.upsert_world Samples.lesson_without_content))
     = 400%Z
   ∧ snd (handle Samples.upsert_world Samples.lesson_without_content) = [])
  ∧ status (fst (handle Samples.upsert_world Samples.lesson_blank)) = 500%Z.
Proof.
  split.
  - apply (content_validation_and_blank_text Samples.upsert_world
             Samples.lesson_without_content).
    intros text H. discriminate H.
  - destruct (content_validation_and_blank_text Samples.upsert_world
                Samples.lesson_blank) as [_ H].
    destruct (H _ eq_refl) as [H500 _]; [discriminate|reflexivity|exact H500].
Defined.

End UpsertFacts.

Module ChatFacts.

Import Chat JSFacts.

(** *** Slices and histories *)

Section Slices.

Context {A : Type}.
Implicit Types (l a b : list A) (n : nat).

Lemma slice_last_length n l : length (slice_last n l) = n `min` length l.
Proof. unfold slice_last. rewrite length_drop. lia. Qed.

Lemma slice_last_short n l : length l ≤ n → slice_last n l = l.
Proof.
  intros H. unfold slice_last.
  replace (length l - n) with 0 by lia. apply drop_0.
Qed.

Lemma slice_last_suffix n l : slice_last n l `suffix_of` l.
Proof. apply suffix_drop. Qed.

Lemma slice_last_app_long n a b :
  n ≤ length b → slice_last n (a ++ b) = slice_last n b.
Proof.
  intros H. unfold slice_last. rewrite length_app.
  rewrite drop_app. rewrite drop_ge by lia. simpl. f_equal. lia.
Qed.

(** Trimming after each append keeps what trimming once at the end keeps. *)
Lemma slice_last_app_slice n a b :
  slice_last n (slice_last n a ++ b) = slice_last n (a ++ b).
Proof.
  unfold slice_last. rewrite !length_app, length_drop, !drop_app.
  rewrite drop_drop, length_drop. f_equal; f_equal; lia.
Qed.

End Slices.

Lemma chatHistory_trim_history s :
  chatHistory (trim_history s) = slice_last 10 (chatHistory s).
Proof.
  unfold trim_history.
  destruct (10 <? length (chatHistory s)) eqn:H; [reflexivity|].
  apply Nat.ltb_ge in H. symmetry. now apply slice_last_short.
Qed.

Lemma chatHistory_after_turn m r s :
  chatHistory (after_turn m r s)
  = slice_last 10 (chatHistory s ++ [HumanMessage m; AIMessage r]).
Proof.
  unfold after_turn. rewrite chatHistory_trim_history. simpl.
  now rewrite <- app_assoc.
Qed.

Lemma agentExecutor_after_turn m r s :
  agentExecutor (after_turn m r s) = agentExecutor s.
Proof.
  unfold after_turn, trim_history.
  destruct (10 <? _); reflexivity.
Qed.

Lemma chatHistory_with_filter f s :
  chatHistory (with_filter f s) = chatHistory s.
Proof.
  unfold with_filter. destruct (negb (truthy f)); [reflexivity|].
  destruct (findIndex _ _); reflexivity.
Qed.

(** An alternating history has even length, and stays alternating when an
    even number of its oldest entries is dropped. *)
Lemma alternating_drop_even l j :
  alternating l = true → alternating (drop (2 * j) l) = true.
Proof.
  revert l. induction j as [|j IH]; intros l Hl; [now rewrite drop_0|].
  replace (2 * S j) with (S (S (2 * j))) by lia.
  destruct l as [|[x|x] [|[y|y] r]]; simpl in *; try discriminate.
  - reflexivity.
  - now apply IH.
Qed.

Lemma alternating_even l : alternating l = true → Nat.Even (length l).
Proof.
  remember (length l) as n eqn:Hn. revert l Hn.
  induction (lt_wf n) as [n _ IH]. intros l Hn Hl.
  destruct l as [|[x|x] [|[y|y] r]]; simpl in *; try discriminate.
  - subst. exists 0. reflexivity.
  - destruct (IH (length r)) with (l := r) as [j Hj]; [lia|reflexivity|exact Hl|].
    exists (S j). lia.
Qed.

Lemma alternating_app_pair l m r :
  alternating l = true → alternating (l ++ [HumanMessage m; AIMessage r]) = true.
Proof.
  remember (length l) as n eqn:Hn. revert l Hn.
  induction (lt_wf n) as [n _ IH]. intros l Hn Hl.
  destruct l as [|[x|x] [|[y|y] t]]; simpl in *; try discriminate.
  - reflexivity.
  - apply (IH (length t)); [lia|reflexivity|exact Hl].
Qed.

Lemma alternating_slice_last_even l j :
  alternating l = true → alternating (slice_last (2 * j) l) = true.
Proof.
  intros Hl. unfold slice_last.
  destruct (alternating_even l Hl) as [h Hh]. rewrite Hh.
  replace (2 * h - 2 * j) with (2 * (h - j)) by lia.
  now apply alternating_drop_even.
Qed.

Lemma alternating_after_turn m r s :
  alternating (chatHistory s) = true →
  alternating (chatHistory (after_turn m r s)) = true.
Proof.
  intros H. rewrite chatHistory_after_turn.
  apply (alternating_slice_last_even _ 5).
  now apply alternating_app_pair.
Qed.

(** *** What one request does *)

Section Runs.

Implicit Types (w : World) (req : ChatRequest) (σ : Server).

(** The handler answers every request: nothing escapes its [catch]. *)
Lemma chat_POST_returns w req σ :
  ∃ r σ', POST w req σ = (Normal r, σ').
Proof. apply try_catch_returns. Qed.

Lemma accepted_true req :
  accepted req = true →
  no_messages (messages req) = false
  ∧ invalid_message (latestMessage_of (messages req)) = false.
Proof.
  unfold accepted. intros H. apply andb_true_iff in H as [H1 H2].
  split; now apply negb_true_iff.
Qed.

(** A request that fails a check is answered with 400 and leaves the state
    as it is. *)
Lemma handle_rejected w req σ :
  accepted req = false →
  handle w req σ =
    (mkResponse
       (ErrorBody (if no_messages (messages req) then "No messages found"
                   else "Invalid message format"))
       400, σ).
Proof.
  unfold accepted, handle, POST. eff_unfold. intros H.
  destruct (no_messages (messages req)); [reflexivity|].
  destruct (invalid_message _); [reflexivity|discriminate].
Qed.

Lemma alter_at_lookup {V} (g : V → V) (l : positive) (h : gmap positive V) x :
  h !! l = Some x → alter g l h = <[l := g x]> h.
Proof.
  intros H. apply map_eq. intros j.
  rewrite lookup_alter, lookup_insert.
  case_decide; [subst; now rewrite H|reflexivity].
Qed.

(** An accepted request of a user whose session exists. *)
Lemma handle_existing w req σ l s :
  accepted req = true →
  conversationHistories σ !! userId_of req = Some l →
  heap σ !! l = Some s →
  let f := metadataFilter_of (lessonIds_of req) in
  let s1 := with_filter f s in
  let m := userMessage_of req in
  let log' := calls σ ++ [Invoke (agentExecutor s1) m (chatHistory s1)] in
  handle w req σ =
    match invoke w (agentExecutor s1) m (chatHistory s1) with
    | Normal result =>
        (mkResponse
           (ChatBody (responseText_of result)
              {| usedRetrieval := usedRetrieval_of result;
                 appliedFilter := f |})
           200,
         {| heap := <[l := after_turn m (responseText_of result) s1]> (heap σ);
            conversationHistories := conversationHistories σ;
            calls := log' |})
    | Throw error =>
        (error_500 error,
         {| heap := <[l := s1]> (heap σ);
            conversationHistories := conversationHistories σ;
            calls := log' |})
    end.
Proof.
  intros Hacc Hu Hl f s1 m log'. subst log'.
  apply accepted_true in Hacc as [Hn Hi].
  unfold handle, POST. rewrite Hn, Hi.
  unfold Map_get, updateExistingSessionFilters, update, deref, log.
  eff_unfold. simpl. rewrite Hu. simpl.
  rewrite lookup_alter_eq, Hl. simpl.
  fold f. fold s1. fold m.
  destruct (invoke w (agentExecutor s1) m (chatHistory s1)) as [result|error];
    simpl.
  - f_equal. f_equal.
    rewrite !alter_alter_eq.
    rewrite (alter_at_lookup _ l (heap σ) s Hl). reflexivity.
  - f_equal. f_equal. now apply alter_at_lookup.
Qed.

(** An accepted request of a user who has no session yet. *)
Lemma handle_new w req σ :
  accepted req = true →
  conversationHistories σ !! userId_of req = None →
  let f := metadataFilter_of (lessonIds_of req) in
  let s0 := new_session f in
  let m := userMessage_of req in
  let l := fresh (dom (heap σ)) in
  let created := calls σ ++ [FromExistingIndex f] in
  let agent := created ++ [CreateOpenAIToolsAgent [retrieverTool_of f]] in
  let log' := agent ++ [Invoke (agentExecutor s0) m []] in
  handle w req σ =
    match fromExistingIndex w f with
    | Throw error =>
        (error_500 error,
         {| heap := heap σ;
            conversationHistories := conversationHistories σ;
            calls := created |})
    | Normal _ =>
        match createOpenAIToolsAgent w [retrieverTool_of f] with
        | Throw error =>
            (error_500 error,
             {| heap := heap σ;
                conversationHistories := conversationHistories σ;
                calls := agent |})
        | Normal _ =>
            match invoke w (agentExecutor s0) m [] with
            | Normal result =>
                (mkResponse
                   (ChatBody (responseText_of result)
                      {| usedRetrieval := usedRetrieval_of result;
                         appliedFilter := f |})
                   200,
                 {| heap := <[l := after_turn m (responseText_of result) s0]>
                              (heap σ);
                    conversationHistories :=
                      <[userId_of req := l]> (conversationHistories σ);
                    calls := log' |})
            | Throw error =>
                (error_500 error,
                 {| heap := <[l := s0]> (heap σ);
                    conversationHistories :=
                      <[userId_of req := l]> (conversationHistories σ);
                    calls := log' |})
            end
        end
    end.
Proof.
  intros Hacc Hu f s0 m l created agent log'. subst log' agent created.
  apply accepted_true in Hacc as [Hn Hi].
  unfold handle, POST. rewrite Hn, Hi.
  unfold Map_get, Map_set, createNewUserSession, alloc, update, deref, log.
  eff_unfold. simpl. rewrite Hu. simpl. fold f.
  destruct (fromExistingIndex w f) as [[]|error]; simpl; [|reflexivity].
  destruct (createOpenAIToolsAgent w [retrieverTool_of f]) as [[]|error];
    simpl; [|reflexivity].
  fold l. rewrite lookup_insert_eq. simpl. fold m.
  change (agentExecutor s0)
    with {| tools := [retrieverTool_of f]; verbose := true |}.
  destruct (invoke w _ m []) as [result|error]; simpl.
  - f_equal. f_equal.
    rewrite !alter_insert_eq. reflexivity.
  - reflexivity.
Qed.

(** An accepted request of a user whose map entry refers to no session
    object; no reachable state has such an entry. *)
Lemma handle_dangling w req σ l :
  accepted req = true →
  conversationHistories σ !! userId_of req = Some l →
  heap σ !! l = None →
  handle w req σ = (error_500 NotAnError, σ).
Proof.
  intros Hacc Hu Hl.
  apply accepted_true in Hacc as [Hn Hi].
  unfold handle, POST. rewrite Hn, Hi.
  unfold Map_get, updateExistingSessionFilters, update, deref, log.
  eff_unfold. simpl. rewrite Hu. simpl.
  rewrite lookup_alter_eq, Hl. simpl.
  f_equal. destruct σ as [h c g]. simpl in *. f_equal.
  apply map_eq. intros j. rewrite lookup_alter.
  case_decide; [subst; now rewrite Hl|reflexivity].
Qed.

End Runs.

(** *** Successful turns *)

Section Turns.

Implicit Types (w : World) (req : ChatRequest) (σ : Server).

Lemma history_of_session σ u s :
  session_of σ u = Some s → history_of σ u = chatHistory s.
Proof. unfold history_of. now intros ->. Qed.

Lemma session_of_lookup σ u l :
  conversationHistories σ !! u = Some l → session_of σ u = heap σ !! l.
Proof. unfold session_of. now intros ->. Qed.

Lemma session_of_absent σ u :
  conversationHistories σ !! u = None → session_of σ u = None.
Proof. unfold session_of. now intros ->. Qed.

(** What a 200 response tells: the request was accepted, the agent was
    invoked on the session [s1] (the user's session after filter
    propagation, or a new one) and resolved with [result]; the response and
    the session afterwards are built from [result]. *)
Lemma chat_200 w req σ :
  status (fst (handle w req σ)) = 200%Z →
  let u := userId_of req in
  let f := metadataFilter_of (lessonIds_of req) in
  let m := userMessage_of req in
  ∃ s1 result pre,
    accepted req = true
    ∧ ((∃ l s, conversationHistories σ !! u = Some l ∧ heap σ !! l = Some s
               ∧ s1 = with_filter f s)
       ∨ (conversationHistories σ !! u = None ∧ s1 = new_session f))
    ∧ chatHistory s1 = history_of σ u
    ∧ invoke w (agentExecutor s1) m (chatHistory s1) = Normal result
    ∧ fst (handle w req σ) =
        mkResponse
          (ChatBody (responseText_of result)
             {| usedRetrieval := usedRetrieval_of result;
                appliedFilter := f |})
          200
    ∧ session_of (snd (handle w req σ)) u
      = Some (after_turn m (responseText_of result) s1)
    ∧ calls (snd (handle w req σ))
      = pre ++ [Invoke (agentExecutor s1) m (chatHistory s1)].
Proof.
  intros H200 u f m.
  destruct (accepted req) eqn:Hacc;
    [|rewrite handle_rejected in H200 by assumption; discriminate].
  destruct (conversationHistories σ !! u) as [l|] eqn:Hu.
  - destruct (heap σ !! l) as [s|] eqn:Hl;
      [|rewrite (handle_dangling w req σ l) in H200 by assumption;
        discriminate].
    pose proof (handle_existing w req σ l s Hacc Hu Hl) as Hrun.
    cbv zeta in Hrun. fold f m in Hrun.
    destruct (invoke w (agentExecutor (with_filter f s)) m
                (chatHistory (with_filter f s))) as [result|error] eqn:Hinv;
      [|rewrite Hrun in H200; discriminate].
    exists (with_filter f s), result, (calls σ). rewrite Hrun. simpl.
    split; [reflexivity|]. split; [left; eauto|].
    split.
    { rewrite chatHistory_with_filter. symmetry.
      apply history_of_session. now rewrite (session_of_lookup σ u l). }
    split; [exact Hinv|]. split; [reflexivity|]. split; [|reflexivity].
    unfold session_of. simpl. fold u. rewrite Hu. simpl.
    apply lookup_insert_eq.
  - pose proof (handle_new w req σ Hacc Hu) as Hrun.
    cbv zeta in Hrun. fold f m in Hrun.
    destruct (fromExistingIndex w f) as [[]|error];
      [|rewrite Hrun in H200; discriminate].
    destruct (createOpenAIToolsAgent w [retrieverTool_of f]) as [[]|error];
      [|rewrite Hrun in H200; discriminate].
    destruct (invoke w (agentExecutor (new_session f)) m []) as [result|error]
      eqn:Hinv; [|rewrite Hrun in H200; discriminate].
    exists (new_session f), result,
      ((calls σ ++ [FromExistingIndex f])
         ++ [CreateOpenAIToolsAgent [retrieverTool_of f]]).
    rewrite Hrun. simpl.
    split; [reflexivity|]. split; [right; eauto|].
    split.
    { unfold history_of. now rewrite (session_of_absent σ u). }
    split; [exact Hinv|]. split; [reflexivity|]. split; [|reflexivity].
    unfold session_of. simpl. fold u. rewrite lookup_insert_eq. simpl.
    apply lookup_insert_eq.
Qed.

End Turns.

(** *** The claims about one request *)

Section Requests.

Implicit Types (w : World) (req : ChatRequest) (σ : Server).

Lemma latestMessage_of_snoc (init : list ChatMessage) m :
  latestMessage_of (Some (init ++ [m])) = Some m.
Proof.
  unfold latestMessage_of. simpl. rewrite length_app. simpl.
  replace (length init + 1 - 1) with (length init) by lia.
  rewrite lookup_app_r by lia. now rewrite Nat.sub_diag.
Qed.

(** C8: a request without messages, with an empty [messages] array, or
    whose last message has no content is answered with an error body and
    status 400; the state is left as it is, so no collaborator was called,
    the agent included. *)
Theorem invalid_messages_rejected w req σ :
  messages req = None
  ∨ messages req = Some []
  ∨ (∃ init m, messages req = Some (init ++ [m]) ∧ content m = None) →
  status (fst (handle w req σ)) = 400%Z
  ∧ (∃ error, body (fst (handle w req σ)) = ErrorBody error)
  ∧ snd (handle w req σ) = σ
  ∧ Forall (λ c, is_invoke c = false)
      (drop (length (calls σ)) (calls (snd (handle w req σ)))).
Proof.
  intros H.
  assert (accepted req = false) as Hacc.
  { unfold accepted. destruct H as [H|[H|(init & m & H & Hm)]]; rewrite H.
    - reflexivity.
    - reflexivity.
    - rewrite latestMessage_of_snoc. simpl. rewrite Hm.
      now rewrite andb_false_r. }
  rewrite (handle_rejected w req σ Hacc). simpl.
  split; [reflexivity|]. split; [eauto|]. split; [reflexivity|].
  rewrite drop_all. constructor.
Qed.


(** C6: in every 200 response [usedRetrieval] is true exactly when the
    result the agent resolved with for this turn (the last call of the
    request) has a non-empty [intermediateSteps] array. *)
Theorem usedRetrieval_reports_steps w req σ :
  status (fst (handle w req σ)) = 200%Z →
  ∃ executor history result response debug,
    last (calls (snd (handle w req σ)))
    = Some (Invoke executor (userMessage_of req) history)
    ∧ invoke w executor (userMessage_of req) history = Normal result
    ∧ body (fst (handle w req σ)) = ChatBody response debug
    ∧ (usedRetrieval debug = true
       ↔ ∃ steps, intermediateSteps result = Some steps ∧ steps ≠ []).
Proof.
  intros H200.
  destruct (chat_200 w req σ H200)
    as (s1 & result & pre & _ & _ & _ & Hinv & Hr & _ & Hcalls).
  exists (agentExecutor s1), (chatHistory s1), result. rewrite Hr, Hcalls.
  simpl. do 2 eexists. split; [apply last_snoc|].
  split; [exact Hinv|]. split; [reflexivity|]. simpl.
  unfold usedRetrieval_of.
  destruct (intermediateSteps result) as [[|st steps]|]; simpl; split.
  - discriminate.
  - intros (x & H & Hne). injection H as <-. congruence.
  - intros _. eexists. split; [reflexivity|discriminate].
  - reflexivity.
  - discriminate.
  - intros (x & H & _). discriminate.
Qed.

End Requests.

(** *** Successive turns *)

Section Serving.

Implicit Types (w : World) (req : ChatRequest) (σ : Server).
Implicit Types (reqs : list (World * ChatRequest)).

Lemma serve_cons w req reqs σ :
  serve ((w, req) :: reqs) σ
  = (fst (handle w req σ) :: fst (serve reqs (snd (handle w req σ))),
     snd (serve reqs (snd (handle w req σ)))).
Proof.
  simpl. destruct (handle w req σ) as [r σ']. simpl.
  now destruct (serve reqs σ').
Qed.

(** A successful turn appends its exchange and keeps the last ten. *)
Lemma chat_200_history w req σ :
  status (fst (handle w req σ)) = 200%Z →
  is_Some (session_of (snd (handle w req σ)) (userId_of req))
  ∧ length (exchange req (fst (handle w req σ))) = 2
  ∧ history_of (snd (handle w req σ)) (userId_of req)
    = slice_last 10 (history_of σ (userId_of req)
                       ++ exchange req (fst (handle w req σ))).
Proof.
  intros H200.
  destruct (chat_200 w req σ H200)
    as (s1 & result & pre & _ & _ & Hh & _ & Hr & Hs & _).
  rewrite Hs, Hr, (history_of_session _ _ _ Hs), chatHistory_after_turn, Hh.
  split; [eauto|]. split; reflexivity.
Qed.

Lemma transcript_cons x reqs r rs :
  transcript (x :: reqs) (r :: rs)
  = exchange (snd x) r ++ transcript reqs rs.
Proof. reflexivity. Qed.

(** Successive successful turns of one user: the history is the last ten
    messages of what it was followed by the transcript of the turns. *)
Lemma serve_history u reqs : ∀ σ,
  reqs ≠ [] →
  Forall (λ x, userId_of (snd x) = u) reqs →
  Forall (λ r, status r = 200%Z) (fst (serve reqs σ)) →
  length (fst (serve reqs σ)) = length reqs
  ∧ length (transcript reqs (fst (serve reqs σ))) = 2 * length reqs
  ∧ history_of (snd (serve reqs σ)) u
    = slice_last 10 (history_of σ u ++ transcript reqs (fst (serve reqs σ))).
Proof.
  induction reqs as [|[w req] rest IH]; intros σ Hne Hu H200; [congruence|].
  rewrite serve_cons in *. simpl fst in *. simpl snd in *.
  apply Forall_cons in Hu as [Hu Hrest]. simpl in Hu. subst u.
  apply Forall_cons in H200 as [H200 Hrest200].
  destruct (chat_200_history w req σ H200) as (_ & Hlen & Hh).
  rewrite transcript_cons. simpl snd.
  destruct rest as [|x rest'].
  - simpl. rewrite app_nil_r. repeat split; [lia|exact Hh].
  - destruct (IH (snd (handle w req σ))) as (IH1 & IH2 & IH3);
      [discriminate|exact Hrest|exact Hrest200|].
    rewrite IH3, Hh, slice_last_app_slice, <- app_assoc.
    rewrite length_app, IH2, Hlen. simpl length in *.
    repeat split; lia.
Qed.

(** Dropping the oldest [j] turns of a transcript of two-message turns. *)
Lemma transcript_drop j : ∀ reqs rs,
  Forall (λ x, length (exchange (snd (fst x)) (snd x)) = 2) (zip reqs rs) →
  drop (2 * j) (transcript reqs rs) = transcript (drop j reqs) (drop j rs).
Proof.
  induction j as [|j IH]; intros reqs rs Hall; [reflexivity|].
  replace (2 * S j) with (2 + 2 * j) by lia.
  destruct reqs as [|x reqs]; [now destruct rs|].
  destruct rs as [|r rs].
  { simpl drop at 3. unfold transcript. rewrite zip_with_nil_r.
    simpl. now rewrite zip_with_nil_r. }
  simpl in Hall. apply Forall_cons in Hall as [Hx Hall]. simpl in Hx.
  rewrite transcript_cons, <- drop_drop.
  rewrite (drop_app_length' _ _ 2) by (symmetry; exact Hx).
  simpl. now apply IH.
Qed.

Lemma serve_exchanges reqs : ∀ σ,
  Forall (λ r, status r = 200%Z) (fst (serve reqs σ)) →
  Forall (λ x, length (exchange (snd (fst x)) (snd x)) = 2)
    (zip reqs (fst (serve reqs σ))).
Proof.
  induction reqs as [|[w req] rest IH]; intros σ H200; [constructor|].
  rewrite serve_cons in *. simpl fst in *.
  apply Forall_cons in H200 as [H200 Hrest].
  simpl. constructor; [|now apply IH].
  simpl. now destruct (chat_200_history w req σ H200) as (_ & Hlen & _).
Qed.

(** C3: after a successful turn the user's session exists, its history has
    at most 10 entries and is the last 10 entries of the history before the
    turn followed by the turn's user and assistant messages, hence made of
    the most recent entries in their order; and after 11 successive
    successful turns of one user the history has exactly 10 entries, the
    user and assistant messages of the last 5 turns in order. *)
Theorem history_capped_at_ten :
  (∀ w req σ,
     status (fst (handle w req σ)) = 200%Z →
     let u := userId_of req in
     let σ' := snd (handle w req σ) in
     let appended := history_of σ u ++ exchange req (fst (handle w req σ)) in
     is_Some (session_of σ' u)
     ∧ length (history_of σ' u) ≤ 10
     ∧ history_of σ' u = slice_last 10 appended
     ∧ history_of σ' u `suffix_of` appended)
  ∧
  (∀ reqs σ u,
     length reqs = 11 →
     Forall (λ x, userId_of (snd x) = u) reqs →
     Forall (λ r, status r = 200%Z) (fst (serve reqs σ)) →
     length (history_of (snd (serve reqs σ)) u) = 10
     ∧ history_of (snd (serve reqs σ)) u
       = transcript (drop 6 reqs) (drop 6 (fst (serve reqs σ)))).
Proof.
  split.
  - intros w req σ H200 u σ' appended.
    destruct (chat_200_history w req σ H200) as (Hs & _ & Hh).
    fold u σ' appended in Hs, Hh. rewrite Hh.
    split; [exact Hs|]. split; [|split; [reflexivity|]].
    + rewrite slice_last_length. lia.
    + apply slice_last_suffix.
  - intros reqs σ u Hlen Hu H200.
    destruct (serve_history u reqs σ) as (Hrs & Ht & Hh);
      [now destruct reqs|exact Hu|exact H200|].
    rewrite Hh, slice_last_app_long by lia.
    unfold slice_last at 1 2. rewrite Ht, Hlen.
    change (2 * 11 - 10) with (2 * 6).
    rewrite length_drop, Ht, Hlen. split; [reflexivity|].
    apply transcript_drop. now apply serve_exchanges.
Qed.

End Serving.

(** *** Reachable states *)

Section Reachable.

Implicit Types (w : World) (req : ChatRequest) (σ : Server).

(** What serving one request leaves of the heap and of the map, whatever
    the outcome. *)
Lemma handle_cases w req σ :
  let σ' := snd (handle w req σ) in
  let u := userId_of req in
  let f := metadataFilter_of (lessonIds_of req) in
  σ' = σ
  ∨ (heap σ' = heap σ ∧ conversationHistories σ' = conversationHistories σ)
  ∨ (∃ l s s',
       conversationHistories σ !! u = Some l ∧ heap σ !! l = Some s
       ∧ conversationHistories σ' = conversationHistories σ
       ∧ heap σ' = <[l := s']> (heap σ)
       ∧ (s' = with_filter f s
          ∨ ∃ m r, s' = after_turn m r (with_filter f s)))
  ∨ (∃ s',
       conversationHistories σ !! u = None
       ∧ conversationHistories σ'
         = <[u := fresh (dom (heap σ))]> (conversationHistories σ)
       ∧ heap σ' = <[fresh (dom (heap σ)) := s']> (heap σ)
       ∧ (s' = new_session f ∨ ∃ m r, s' = after_turn m r (new_session f))).
Proof.
  intros σ' u f. subst σ'.
  destruct (accepted req) eqn:Hacc;
    [|left; now rewrite handle_rejected].
  destruct (conversationHistories σ !! u) as [l|] eqn:Hu.
  - destruct (heap σ !! l) as [s|] eqn:Hl;
      [|left; now rewrite (handle_dangling w req σ l)].
    right. right. left. exists l, s.
    rewrite (handle_existing w req σ l s Hacc Hu Hl). cbv zeta. fold f.
    destruct (invoke w _ _ _) as [result|error]; simpl; eexists;
      repeat (split; [first [reflexivity|assumption]|]); eauto.
  - rewrite (handle_new w req σ Hacc Hu). cbv zeta. fold f u.
    destruct (fromExistingIndex w f) as [[]|error];
      [|right; left; split; reflexivity].
    destruct (createOpenAIToolsAgent w _) as [[]|error];
      [|right; left; split; reflexivity].
    right. right. right.
    destruct (invoke w _ _ _) as [result|error]; simpl; eexists;
      repeat (split; [first [reflexivity|assumption]|]); eauto.
Qed.

(** A property of session objects that new sessions have and that filter
    propagation and turns keep is kept by serving a request. *)
Lemma handle_all_sessions (P : ChatSession → Prop) w req σ :
  (∀ f, P (new_session f)) →
  (∀ f s, P s → P (with_filter f s)) →
  (∀ m r s, P s → P (after_turn m r s)) →
  all_sessions P σ → all_sessions P (snd (handle w req σ)).
Proof.
  intros Hnew Hfilter Hturn Hinv.
  destruct (handle_cases w req σ)
    as [->|[[Hh _]|[(l & s & s' & Hu & Hl & _ & Hh & Hs')
                   |(s' & Hu & _ & Hh & Hs')]]];
    [exact Hinv| | |]; unfold all_sessions; rewrite Hh.
  - exact Hinv.
  - intros l' x Hx. apply lookup_insert_Some in Hx as [[_ <-]|[_ Hx]];
      [|eapply Hinv, Hx].
    destruct Hs' as [->|(m & r & ->)]; [|apply Hturn];
      eapply Hfilter, Hinv, Hl.
  - intros l' x Hx. apply lookup_insert_Some in Hx as [[_ <-]|[_ Hx]];
      [|eapply Hinv, Hx].
    destruct Hs' as [->|(m & r & ->)]; [|apply Hturn]; apply Hnew.
Qed.

Lemma reachable_all_sessions (P : ChatSession → Prop) σ :
  (∀ f, P (new_session f)) →
  (∀ f s, P s → P (with_filter f s)) →
  (∀ m r s, P s → P (after_turn m r s)) →
  reachable σ → all_sessions P σ.
Proof.
  intros Hnew Hfilter Hturn. induction 1 as [|w req σ _ IH].
  - intros l s H. simpl in H. now rewrite lookup_empty in H.
  - now apply handle_all_sessions.
Qed.

(** In a reachable state every history is made of (user, assistant)
    pairs. *)
Lemma reachable_histories_alternate σ :
  reachable σ → histories_alternate σ.
Proof.
  apply reachable_all_sessions.
  - reflexivity.
  - intros f s. now rewrite chatHistory_with_filter.
  - intros m r s. apply alternating_after_turn.
Qed.

Lemma handle_entries_live w req σ :
  entries_live σ → entries_live (snd (handle w req σ)).
Proof.
  intros Hinv.
  destruct (handle_cases w req σ)
    as [->|[[Hh Hc]|[(l & s & s' & Hu & Hl & Hc & Hh & _)
                    |(s' & Hu & Hc & Hh & _)]]];
    [exact Hinv| | |]; unfold entries_live; rewrite Hh, Hc.
  - exact Hinv.
  - intros u' l' Hu'. rewrite lookup_insert_is_Some.
    destruct (decide (l = l')); [now left|right; split; eauto].
  - intros u' l' Hu'. rewrite lookup_insert_is_Some.
    apply lookup_insert_Some in Hu' as [[_ <-]|[_ Hu']]; [now left|].
    destruct (decide (fresh (dom (heap σ)) = l')); [now left|].
    right; split; eauto.
Qed.

(** In a reachable state every user of the map has a session object. *)
Lemma reachable_entries_live σ : reachable σ → entries_live σ.
Proof.
  induction 1 as [|w req σ _ IH].
  - intros u l H. simpl in H. now rewrite lookup_empty in H.
  - now apply handle_entries_live.
Qed.

Lemma last_slice_last_snoc {A} n (l : list A) x :
  0 < n → last (slice_last n (l ++ [x])) = Some x.
Proof.
  intros Hn. unfold slice_last. rewrite length_app. simpl.
  rewrite drop_app_le by lia. apply last_snoc.
Qed.

(** C9: after a successful turn served from a reachable state, the history
    of the user's session has even length, alternates user and assistant
    messages and ends with the assistant message whose content is the
    response returned; that response is the agent's output, or the fixed
    fallback string when the output is missing or empty. *)
Theorem history_alternates_and_ends_with_response w req σ :
  reachable σ →
  status (fst (handle w req σ)) = 200%Z →
  ∃ s' response debug,
    session_of (snd (handle w req σ)) (userId_of req) = Some s'
    ∧ body (fst (handle w req σ)) = ChatBody response debug
    ∧ Nat.Even (length (chatHistory s'))
    ∧ alternating (chatHistory s') = true
    ∧ last (chatHistory s') = Some (AIMessage response)
    ∧ ∃ executor history result,
        invoke w executor (userMessage_of req) history = Normal result
        ∧ response = responseText_of result
        ∧ (output result = None ∨ output result = Some "" →
           response = fallback).
Proof.
  intros Hreach H200.
  destruct (chat_200 w req σ H200)
    as (s1 & result & pre & _ & _ & _ & Hinv & Hr & Hs & _).
  assert (alternating (chatHistory
            (after_turn (userMessage_of req) (responseText_of result) s1))
          = true) as Halt.
  { unfold session_of in Hs.
    destruct (conversationHistories _ !! _) as [l|]; [|discriminate].
    simpl in Hs.
    eapply (reachable_histories_alternate (snd (handle w req σ))), Hs.
    now apply reachable_handle. }
  exists (after_turn (userMessage_of req) (responseText_of result) s1).
  rewrite Hr. simpl. do 2 eexists.
  split; [exact Hs|]. split; [reflexivity|].
  split; [now apply alternating_even|]. split; [exact Halt|].
  split.
  - rewrite chatHistory_after_turn.
    change [HumanMessage (userMessage_of req);
            AIMessage (responseText_of result)]
      with ([HumanMessage (userMessage_of req)]
              ++ [AIMessage (responseText_of result)]).
    rewrite app_assoc. apply last_slice_last_snoc. lia.
  - exists (agentExecutor s1), (chatHistory s1), result.
    split; [exact Hinv|]. split; [reflexivity|].
    unfold responseText_of. intros [->| ->]; reflexivity.
Qed.

End Reachable.

(** *** Filter propagation and agent failure *)

Section Filters.

Implicit Types (w : World) (req : ChatRequest) (σ : Server).
Implicit Types (p : Tool → bool) (g : Tool → Tool) (ts : list Tool).

Lemma with_filter_absent f s : truthy f = false → with_filter f s = s.
Proof. unfold with_filter. now intros ->. Qed.

Lemma same_tool_but_filter_refl t : same_tool_but_filter t t.
Proof.
  unfold same_tool_but_filter. repeat split.
  destruct (retriever t); [split; reflexivity|exact I].
Qed.

Lemma same_tool_but_filter_set f t :
  same_tool_but_filter t (set_retriever_filter f t).
Proof.
  unfold same_tool_but_filter, set_retriever_filter.
  destruct (retriever t) as [r|] eqn:Hr; simpl; rewrite ?Hr; repeat split.
Qed.

Lemma Forall2_alter_tools f ts i :
  Forall2 same_tool_but_filter ts (alter (set_retriever_filter f) i ts).
Proof.
  revert i. induction ts as [|t ts IH]; intros i; [constructor|].
  destruct i as [|i]; simpl; constructor.
  - apply same_tool_but_filter_set.
  - apply Forall2_same_length_lookup_2; [reflexivity|].
    intros j x y Hx Hy. rewrite Hx in Hy. injection Hy as <-.
    apply same_tool_but_filter_refl.
  - apply same_tool_but_filter_refl.
  - apply IH.
Qed.

(** Filter propagation changes retriever filters only. *)
Lemma with_filter_same f s : same_session_but_filter s (with_filter f s).
Proof.
  unfold same_session_but_filter. rewrite chatHistory_with_filter.
  split; [reflexivity|]. unfold with_filter.
  destruct (negb (truthy f)).
  { split; [reflexivity|].
    apply Forall2_same_length_lookup_2; [reflexivity|].
    intros j x y Hx Hy. rewrite Hx in Hy. injection Hy as <-.
    apply same_tool_but_filter_refl. }
  destruct (findIndex _ _) as [i|]; simpl.
  - split; [reflexivity|apply Forall2_alter_tools].
  - split; [reflexivity|].
    apply Forall2_same_length_lookup_2; [reflexivity|].
    intros j x y Hx Hy. rewrite Hx in Hy. injection Hy as <-.
    apply same_tool_but_filter_refl.
Qed.

(** Altering the element [findIndex] points at, by a function that keeps
    the test, alters what [find] returns. *)
Lemma find_alter_findIndex p g ts : ∀ i,
  (∀ t, p (g t) = p t) →
  findIndex p ts = Some i →
  List.find p (alter g i ts) = g <$> List.find p ts.
Proof.
  induction ts as [|t ts IH]; intros i Hg Hi; [discriminate|].
  simpl in Hi. destruct (p t) eqn:Ht.
  - injection Hi as <-. simpl. now rewrite Hg, Ht.
  - destruct (findIndex p ts) as [j|] eqn:Hj; [|discriminate].
    injection Hi as <-. simpl. rewrite Ht. now apply IH.
Qed.

Lemma findIndex_None p ts :
  findIndex p ts = None → List.find p ts = None.
Proof.
  induction ts as [|t ts IH]; [reflexivity|]. simpl.
  destruct (p t); [discriminate|].
  destruct (findIndex p ts); [discriminate|]. intros _. now apply IH.
Qed.

(** A present filter becomes the filter of the session's search tool. *)
Lemma session_filter_with_filter f s :
  truthy f = true → is_Some (session_filter s) →
  session_filter (with_filter f s) = Some f.
Proof.
  intros Hf [old Hold]. unfold with_filter. rewrite Hf. simpl.
  unfold session_filter in *.
  destruct (findIndex _ (tools (agentExecutor s))) as [i|] eqn:Hi.
  - simpl. rewrite (find_alter_findIndex _ _ _ i); [|
      intros t; unfold set_retriever_filter;
      now destruct (retriever t) | exact Hi].
    destruct (List.find _ _) as [t|]; [|discriminate]. simpl in *.
    unfold set_retriever_filter.
    destruct (retriever t); [reflexivity|discriminate].
  - apply findIndex_None in Hi. rewrite Hi in Hold. discriminate.
Qed.

Lemma session_filter_executor s s' :
  agentExecutor s = agentExecutor s' → session_filter s = session_filter s'.
Proof. unfold session_filter. now intros ->. Qed.

(** On a session whose executor is as [createNewUserSession] built it,
    [updateExistingSessionFilters] changes nothing, whatever the filter: the
    search tool is found, but it has no [retriever] property to write to. *)
Lemma with_filter_as_created f f' s :
  agentExecutor s = {| tools := [retrieverTool_of f]; verbose := true |} →
  with_filter f' s = s.
Proof.
  destruct s as [ex h]. simpl. intros ->. unfold with_filter.
  destruct (truthy f'); reflexivity.
Qed.

Lemma filter_in_force_executor s s' :
  agentExecutor s = agentExecutor s' → filter_in_force s = filter_in_force s'.
Proof. unfold filter_in_force. now intros ->. Qed.

(** C5: the overwrite does not take place.  After a first request of [u1]
    with lesson ids 1001 and 1002, a second request of [u1] with lesson id
    2001 succeeds and reports [appliedFilter = { id: { $in: ["2001"] } }],
    but the session's executor is what it was: the retriever its search tool
    closes over still filters by 1001 and 1002, since the tool has no
    [retriever] property and the guard of [updateExistingSessionFilters]
    fails. *)
Theorem later_lesson_ids_do_not_reach_the_retriever :
  let σ := Samples.after_first_turn in
  let r := handle Samples.chat_world (Samples.ask "again" (Some ["2001"])) σ in
  (session_of σ "u1" ≫= filter_in_force) = Some (id_in ["1001"; "1002"])
  ∧ status (fst r) = 200%Z
  ∧ appliedFilter_of (fst r) = Some (id_in ["2001"])
  ∧ (session_of (snd r) "u1" ≫= filter_in_force)
    = Some (id_in ["1001"; "1002"])
  ∧ (session_of (snd r) "u1" ≫= session_filter) = None
  ∧ (agentExecutor <$> session_of (snd r) "u1")
    = (agentExecutor <$> session_of σ "u1").
Proof. vm_compute. repeat split. Qed.

(** C10: when the agent's invocation rejects, the response has status 500.
    For a user whose session exists, the session afterwards has the history
    it had before the request.  For a user without a session whose session
    could be constructed, the new session, with an empty history, is in the
    map afterwards. *)
Theorem agent_failure_keeps_history w req σ error :
  accepted req = true →
  let u := userId_of req in
  let f := metadataFilter_of (lessonIds_of req) in
  let m := userMessage_of req in
  let r := fst (handle w req σ) in
  let σ' := snd (handle w req σ) in
  (∀ l s,
     conversationHistories σ !! u = Some l → heap σ !! l = Some s →
     invoke w (agentExecutor (with_filter f s)) m (chatHistory s)
     = Throw error →
     status r = 500%Z
     ∧ r = error_500 error
     ∧ conversationHistories σ' !! u = Some l
     ∧ ∃ s', session_of σ' u = Some s' ∧ chatHistory s' = chatHistory s)
  ∧
  (conversationHistories σ !! u = None →
   fromExistingIndex w f = Normal tt →
   createOpenAIToolsAgent w [retrieverTool_of f] = Normal tt →
   invoke w (agentExecutor (new_session f)) m [] = Throw error →
   status r = 500%Z
   ∧ r = error_500 error
   ∧ session_of σ' u = Some (new_session f)
   ∧ history_of σ' u = []).
Proof.
  intros Hacc u f m r σ'. split.
  - intros l s Hu Hl Hinv. subst r σ'.
    rewrite (handle_existing w req σ l s Hacc Hu Hl). cbv zeta. fold f m.
    rewrite chatHistory_with_filter, Hinv. simpl.
    split; [reflexivity|]. split; [reflexivity|]. split; [exact Hu|].
    exists (with_filter f s). split; [|apply chatHistory_with_filter].
    unfold session_of. simpl. fold u. rewrite Hu. simpl.
    apply lookup_insert_eq.
  - intros Hu Hs Ha Hinv. subst r σ'.
    rewrite (handle_new w req σ Hacc Hu). cbv zeta. fold f m u.
    rewrite Hs, Ha, Hinv. cbn [fst snd].
    split; [reflexivity|]. split; [reflexivity|].
    match goal with
    | |- session_of ?x u = _ ∧ _ =>
        assert (session_of x u = Some (new_session f)) as Hso
    end.
    { unfold session_of. simpl. rewrite lookup_insert_eq. simpl.
      apply lookup_insert_eq. }
    split; [exact Hso|]. unfold history_of. now rewrite Hso.
Qed.

End Filters.

(** *** The theorems at the sample requests *)

(** Two requests of [u1] without lesson ids, one after the other: the second
    response has no applied filter and the history then has 4 entries. *)
Example two_turns_without_lessonIds :
  let turn := (Samples.chat_world, Samples.ask "hi" None) in
  (appliedFilter_of <$> fst (serve [turn; turn] initial))
  = [Some JSUndefined; Some JSUndefined]
  ∧ length (history_of (snd (serve [turn; turn] initial)) "u1") = 4.
Proof. vm_compute. split; reflexivity. Qed.

(** An empty [messages] array and a last message without content. *)
Lemma invalid_messages_rejected_witness :
  status (fst (handle Samples.chat_world Samples.ask_nothing initial)) = 400%Z
  ∧ status (fst (handle Samples.chat_world Samples.ask_without_content
                   initial)) = 400%Z.
Proof.
  split.
  - apply (invalid_messages_rejected Samples.chat_world Samples.ask_nothing
             initial).
    right. left. reflexivity.
  - apply (invalid_messages_rejected Samples.chat_world
             Samples.ask_without_content initial).
    right. right.
    exists [], {| role := Some "user"; content := None |}.
    split; reflexivity.
Defined.


Lemma usedRetrieval_reports_steps_witness :
  ∃ executor history result response debug,
    last (calls (snd (handle Samples.chat_world (Samples.ask "hi" None)
                        initial)))
    = Some (Invoke executor "hi" history)
    ∧ invoke Samples.chat_world executor "hi" history = Normal result
    ∧ body (fst (handle Samples.chat_world (Samples.ask "hi" None) initial))
      = ChatBody response debug
    ∧ (usedRetrieval debug = true
       ↔ ∃ steps, intermediateSteps result = Some steps ∧ steps ≠ []).
Proof.
  apply (usedRetrieval_reports_steps Samples.chat_world
           (Samples.ask "hi" None) initial).
  reflexivity.
Defined.

(** Eleven turns of [u1] from the initial state. *)
Lemma history_capped_at_ten_witness :
  length (history_of (snd (serve Samples.eleven_turns initial)) "u1") = 10
  ∧ history_of (snd (serve Samples.eleven_turns initial)) "u1"
    = transcript (drop 6 Samples.eleven_turns)
        (drop 6 (fst (serve Samples.eleven_turns initial))).
Proof.
  apply (proj2 history_capped_at_ten Samples.eleven_turns initial "u1").
  - reflexivity.
  - repeat constructor.
  - vm_compute. repeat constructor.
Defined.

(** A second turn of [u1], answered by an agent without output. *)
Lemma history_alternates_and_ends_with_response_witness :
  ∃ s' response debug,
    session_of (snd (handle Samples.silent_world (Samples.ask "again" None)
                       Samples.after_first_turn)) "u1" = Some s'
    ∧ body (fst (handle Samples.silent_world (Samples.ask "again" None)
                   Samples.after_first_turn)) = ChatBody response debug
    ∧ Nat.Even (length (chatHistory s'))
    ∧ alternating (chatHistory s') = true
    ∧ last (chatHistory s') = Some (AIMessage response)
    ∧ ∃ executor history result,
        invoke Samples.silent_world executor "again" history = Normal result
        ∧ response = responseText_of result
        ∧ (output result = None ∨ output result = Some "" →
           response = fallback).
Proof.
  apply (history_alternates_and_ends_with_response Samples.silent_world
           (Samples.ask "again" None) Samples.after_first_turn).
  - apply reachable_handle, reachable_initial.
  - reflexivity.
Defined.

(** A failing agent on the first request of [u1], and on a second one. *)
Lemma agent_failure_keeps_history_witness :
  (status (fst (handle Samples.failing_world (Samples.ask "hi" None) initial))
   = 500%Z
   ∧ session_of (snd (handle Samples.failing_world (Samples.ask "hi" None)
                        initial)) "u1"
     = Some (new_session JSUndefined))
  ∧
  (status (fst (handle Samples.failing_world (Samples.ask "again" None)
                  Samples.after_first_turn)) = 500%Z
   ∧ history_of (snd (handle Samples.failing_world (Samples.ask "again" None)
                        Samples.after_first_turn)) "u1"
     = [HumanMessage "hi"; AIMessage "Answer to: hi"]).
Proof.
  split.
  - destruct (agent_failure_keeps_history Samples.failing_world
                (Samples.ask "hi" None) initial (ErrorObject "429 rate limit")
                eq_refl) as [_ Hnew].
    destruct Hnew as (H500 & _ & Hs & _); try reflexivity.
    split; [exact H500|exact Hs].
  - destruct (agent_failure_keeps_history Samples.failing_world
                (Samples.ask "again" None) Samples.after_first_turn
                (ErrorObject "429 rate limit") eq_refl) as [Hold _].
    destruct (Hold 1%positive
                (after_turn "hi" "Answer to: hi"
                   (new_session (id_in ["1001"; "1002"]))))
      as (H500 & _ & _ & s' & Hs & Hh); try reflexivity.
    split; [exact H500|].
    rewrite (history_of_session _ "u1" s' Hs), Hh. reflexivity.
Defined.

End ChatFacts.

(** ** Further properties: the cleaning of lesson texts *)

Module TextFacts.

Import Shape JSFacts.

Lemma replace_ws_runs_in_run_head s :
  starts_with_whitespace (replace_ws_runs true s) = false.
Proof.
  induction s as [|c r IH]; simpl; [reflexivity|].
  destruct (is_whitespace c) eqn:Hc; simpl; [exact IH|exact Hc].
Qed.

(** One step of the scan, outside a run. *)
Lemma replace_ws_runs_step c r :
  replace_ws_runs false (String c r) =
    if is_whitespace c && starts_with_whitespace r
    then String " " (replace_ws_runs true r)
    else String c (replace_ws_runs false r).
Proof.
  simpl. destruct (is_whitespace c); simpl.
  - destruct r as [|d r']; [reflexivity|]. simpl.
    destruct (is_whitespace d); reflexivity.
  - reflexivity.
Qed.

Lemma replace_ws_runs_head r :
  starts_with_whitespace r = false →
  starts_with_whitespace (replace_ws_runs false r) = false.
Proof.
  destruct r as [|d r']; [reflexivity|]. intros Hd. simpl in Hd.
  rewrite replace_ws_runs_step, Hd. simpl. exact Hd.
Qed.

Lemma no_adjacent_whitespace_replace b s :
  no_adjacent_whitespace (replace_ws_runs b s) = true.
Proof.
  revert b. induction s as [|c r IH]; intros b; [reflexivity|].
  destruct b.
  - simpl. destruct (is_whitespace c) eqn:Hc; [apply IH|].
    simpl. rewrite Hc, (IH false). reflexivity.
  - rewrite replace_ws_runs_step.
    destruct (is_whitespace c) eqn:Hc; simpl.
    + destruct (starts_with_whitespace r) eqn:Hr; simpl.
      * rewrite replace_ws_runs_in_run_head, (IH true). reflexivity.
      * rewrite Hc, (replace_ws_runs_head r Hr), (IH false). reflexivity.
    + rewrite Hc, (IH false). reflexivity.
Qed.

Lemma no_adjacent_whitespace_tail c r :
  no_adjacent_whitespace (String c r) = true →
  no_adjacent_whitespace r = true.
Proof. simpl. intros H. now apply andb_true_iff in H as [_ H]. Qed.

Lemma no_adjacent_whitespace_trimStart s :
  no_adjacent_whitespace s = true →
  no_adjacent_whitespace (trimStart s) = true.
Proof.
  induction s as [|c r IH]; [reflexivity|]. intros H.
  simpl trimStart. destruct (is_whitespace c); [|exact H].
  apply IH. now apply no_adjacent_whitespace_tail in H.
Qed.

(** [trimEnd] keeps a prefix: what is left begins as the text did. *)
Lemma trimEnd_head s :
  trimEnd s ≠ "" →
  starts_with_whitespace (trimEnd s) = starts_with_whitespace s.
Proof.
  destruct s as [|c r]; [reflexivity|]. simpl.
  destruct (is_whitespace c && String.eqb (trimEnd r) ""); [congruence|].
  reflexivity.
Qed.

Lemma no_adjacent_whitespace_trimEnd s :
  no_adjacent_whitespace s = true →
  no_adjacent_whitespace (trimEnd s) = true.
Proof.
  induction s as [|c r IH]; [reflexivity|]. intros H.
  simpl trimEnd.
  destruct (is_whitespace c && String.eqb (trimEnd r) "") eqn:E;
    [reflexivity|].
  pose proof (no_adjacent_whitespace_tail c r H) as Hr.
  simpl in H. apply andb_true_iff in H as [Hpair _].
  simpl. rewrite (IH Hr), andb_true_r.
  destruct (String.eqb_spec (trimEnd r) "") as [->|Hne]; [now rewrite andb_false_r|].
  now rewrite (trimEnd_head r Hne).
Qed.

Lemma starts_with_whitespace_trimStart s :
  starts_with_whitespace (trimStart s) = false.
Proof.
  induction s as [|c r IH]; [reflexivity|]. simpl.
  destruct (is_whitespace c) eqn:Hc; [exact IH|exact Hc].
Qed.

Lemma ends_with_whitespace_trimEnd s :
  ends_with_whitespace (trimEnd s) = false.
Proof.
  induction s as [|c r IH]; [reflexivity|]. simpl trimEnd.
  destruct (is_whitespace c) eqn:Hc; simpl.
  - destruct (String.eqb_spec (trimEnd r) "") as [E|E]; [reflexivity|].
    simpl. destruct (trimEnd r); [congruence|exact IH].
  - simpl. destruct (trimEnd r); [exact Hc|exact IH].
Qed.

Lemma starts_with_whitespace_trim s :
  starts_with_whitespace (trim s) = false.
Proof.
  unfold trim.
  destruct (String.eqb_spec (trimEnd (trimStart s)) "") as [->|Hne];
    [reflexivity|].
  rewrite (trimEnd_head _ Hne). apply starts_with_whitespace_trimStart.
Qed.

(** Texts in the shape cleaning produces are left alone by its three
    steps. *)
Lemma replace_ws_runs_fixed s :
  no_adjacent_whitespace s = true → replace_ws_runs false s = s.
Proof.
  induction s as [|c r IH]; [reflexivity|]. intros H.
  rewrite replace_ws_runs_step.
  pose proof (no_adjacent_whitespace_tail c r H) as Hr.
  simpl in H. apply andb_true_iff in H as [Hpair _].
  apply negb_true_iff in Hpair. rewrite Hpair. now rewrite (IH Hr).
Qed.

Lemma trimStart_fixed s :
  starts_with_whitespace s = false → trimStart s = s.
Proof. destruct s as [|c r]; [reflexivity|]. simpl. now intros ->. Qed.

Lemma trimEnd_fixed s :
  ends_with_whitespace s = false → trimEnd s = s.
Proof.
  induction s as [|c r IH]; [reflexivity|]. intros H. simpl in H.
  simpl trimEnd. destruct r as [|d r'].
  - simpl. now rewrite H.
  - rewrite (IH H). simpl. now rewrite andb_false_r.
Qed.

Lemma non_whitespace_replace b s :
  non_whitespace (replace_ws_runs b s) = non_whitespace s.
Proof.
  revert b. induction s as [|c r IH]; intros b; [reflexivity|].
  destruct b.
  - simpl. destruct (is_whitespace c) eqn:Hc; [apply IH|].
    simpl. now rewrite Hc, (IH false).
  - rewrite replace_ws_runs_step.
    destruct (is_whitespace c) eqn:Hc; simpl.
    + destruct (starts_with_whitespace r); simpl.
      * now rewrite Hc, (IH true).
      * now rewrite !Hc, (IH false).
    + now rewrite !Hc, (IH false).
Qed.

Lemma non_whitespace_trimStart s :
  non_whitespace (trimStart s) = non_whitespace s.
Proof.
  induction s as [|c r IH]; [reflexivity|]. simpl.
  destruct (is_whitespace c) eqn:Hc; [exact IH|]. simpl. now rewrite Hc.
Qed.

Lemma non_whitespace_all_whitespace s :
  all_whitespace s = true → non_whitespace s = "".
Proof.
  induction s as [|c r IH]; [reflexivity|]. simpl.
  destruct (is_whitespace c); [exact IH|discriminate].
Qed.

Lemma non_whitespace_trimEnd s :
  non_whitespace (trimEnd s) = non_whitespace s.
Proof.
  induction s as [|c r IH]; [reflexivity|]. simpl trimEnd.
  destruct (is_whitespace c) eqn:Hc; simpl.
  - destruct (String.eqb_spec (trimEnd r) "") as [E|E].
    + rewrite Hc. symmetry. apply non_whitespace_all_whitespace.
      now apply trimEnd_empty.
    + simpl. now rewrite Hc.
  - now rewrite Hc, IH.
Qed.

Lemma length_replace_ws_runs b s :
  String.length (replace_ws_runs b s) ≤ String.length s.
Proof.
  revert b. induction s as [|c r IH]; intros b; [reflexivity|].
  destruct b.
  - simpl. destruct (is_whitespace c); simpl;
      [pose proof (IH true)|pose proof (IH false)]; lia.
  - rewrite replace_ws_runs_step.
    destruct (is_whitespace c && starts_with_whitespace r); simpl;
      [pose proof (IH true)|pose proof (IH false)]; lia.
Qed.

Lemma length_trimStart s : String.length (trimStart s) ≤ String.length s.
Proof.
  induction s as [|c r IH]; [reflexivity|]. simpl.
  destruct (is_whitespace c); simpl; lia.
Qed.

Lemma length_trimEnd s : String.length (trimEnd s) ≤ String.length s.
Proof.
  induction s as [|c r IH]; [reflexivity|]. simpl.
  destruct (is_whitespace c && _); simpl; lia.
Qed.

(** The shape of every cleaned text. *)
Lemma cleanText_shape text :
  starts_with_whitespace (Upsert.cleanText text) = false
  ∧ ends_with_whitespace (Upsert.cleanText text) = false
  ∧ no_adjacent_whitespace (Upsert.cleanText text) = true.
Proof.
  unfold Upsert.cleanText. split; [apply starts_with_whitespace_trim|].
  split; [apply ends_with_whitespace_trimEnd|].
  unfold trim.
  apply no_adjacent_whitespace_trimEnd, no_adjacent_whitespace_trimStart,
    no_adjacent_whitespace_replace.
Qed.

(** X2: cleaning a cleaned text changes nothing. *)
Theorem cleanText_idempotent text :
  Upsert.cleanText (Upsert.cleanText text) = Upsert.cleanText text.
Proof.
  destruct (cleanText_shape text) as (Hs & He & Hn).
  unfold Upsert.cleanText at 1. unfold trim.
  rewrite (replace_ws_runs_fixed _ Hn), (trimStart_fixed _ Hs).
  now apply trimEnd_fixed.
Qed.

(** X3: cleaning keeps every code unit that is not whitespace, in order,
    and never makes the text longer. *)
Theorem cleanText_keeps_non_whitespace text :
  non_whitespace (Upsert.cleanText text) = non_whitespace text
  ∧ String.length (Upsert.cleanText text) ≤ String.length text.
Proof.
  unfold Upsert.cleanText, trim. split.
  - now rewrite non_whitespace_trimEnd, non_whitespace_trimStart,
      non_whitespace_replace.
  - pose proof (length_trimEnd (trimStart (replace_ws_runs false text))).
    pose proof (length_trimStart (replace_ws_runs false text)).
    pose proof (length_replace_ws_runs false text). lia.
Qed.

End TextFacts.

(** ** Further properties: the upsert handler *)

Module UpsertExtras.

Import Upsert Shape JSFacts UpsertFacts TextFacts.

Section Runs.

Context {Embedding : Type}.
Implicit Types (w : World Embedding) (req : LessonUpsertRequest).

(** A request that passes validation and whose embedding call rejects. *)
Lemma upsert_embedding_failed w req text error :
  content req = JSString text → text ≠ "" → cleanText text ≠ "" →
  embeddings_create w (cleanText text) = Throw error →
  handle w req =
    (mkResponse
       (ErrorBody
          ("There was an error processing your request: "
           +:+ ("Failed to get embedding: "
                +:+ message_or "Unknown error" error)))
       500,
     [EmbeddingsCreate "text-embedding-ada-002" (cleanText text)]).
Proof.
  intros Hc Hne Hcl He. unfold handle, POST. rewrite Hc. simpl.
  apply str_truthy_true in Hne. unfold str_truthy in Hne. rewrite Hne. simpl.
  unfold getEmbedding. apply str_truthy_true in Hcl. rewrite Hcl. simpl.
  unfold log. eff_unfold. simpl. rewrite He. reflexivity.
Qed.

(** The four ways a request can go, by the calls it makes. *)
Lemma upsert_cases w req :
  (snd (handle w req) = []
   ∧ ((∀ text, content req = JSString text → text = "")
      ∨ ∃ text, content req = JSString text ∧ text ≠ ""
                ∧ cleanText text = ""))
  ∨ (∃ text error,
       content req = JSString text ∧ text ≠ "" ∧ cleanText text ≠ ""
       ∧ embeddings_create w (cleanText text) = Throw error
       ∧ snd (handle w req)
         = [EmbeddingsCreate "text-embedding-ada-002" (cleanText text)])
  ∨ (∃ text e,
       content req = JSString text ∧ text ≠ "" ∧ cleanText text ≠ ""
       ∧ embeddings_create w (cleanText text) = Normal e
       ∧ snd (handle w req)
         = [EmbeddingsCreate "text-embedding-ada-002" (cleanText text)]
             ++ (if id_truthy (id req) then [] else [Uuidv4])
             ++ [NamespaceUpsert [vector_literal w req e]]).
Proof.
  destruct (content req) as [| |b|n|text|l|o] eqn:Hc;
    try (left; rewrite upsert_invalid;
         [split; [reflexivity|left]|];
         intros t Ht; try rewrite Hc in Ht; discriminate).
  destruct (String.eqb_spec text "") as [->|Hne].
  { left. rewrite upsert_invalid; [split; [reflexivity|left]|];
      intros t Ht; try rewrite Hc in Ht; congruence. }
  destruct (String.eqb_spec (cleanText text) "") as [Hcl|Hcl].
  { left. rewrite (upsert_blank w req text) by assumption.
    split; [reflexivity|right; eauto]. }
  right. destruct (embeddings_create w (cleanText text)) as [e|error] eqn:He.
  - right. exists text, e.
    destruct (upsert_embedded w req text e Hc Hne Hcl He) as [Hcalls _].
    repeat split; assumption.
  - left. exists text, error.
    rewrite (upsert_embedding_failed w req text error) by assumption.
    repeat split; assumption.
Qed.

(** Every vector written comes from the run that embedded the text. *)
Lemma upsert_written w req v :
  v ∈ upserted (snd (handle w req)) →
  ∃ text e,
    content req = JSString text ∧ text ≠ "" ∧ cleanText text ≠ ""
    ∧ embeddings_create w (cleanText text) = Normal e
    ∧ v = vector_literal w req e
    ∧ upserted (snd (handle w req)) = [v].
Proof.
  intros Hv.
  destruct (upsert_cases w req)
    as [[Hcalls _]|[(text & error & _ & _ & _ & _ & Hcalls)
                   |(text & e & Hc & Hne & Hcl & He & Hcalls)]];
    rewrite Hcalls in Hv |- *.
  - inversion Hv.
  - inversion Hv.
  - assert (upserted
              ([EmbeddingsCreate "text-embedding-ada-002" (cleanText text)]
                 ++ (if id_truthy (id req) then [] else [Uuidv4])
                 ++ [NamespaceUpsert [vector_literal w req e]])
            = [vector_literal w req e]) as Hup
      by (destruct (id_truthy (id req)); reflexivity).
    rewrite Hup in Hv |- *. apply list_elem_of_singleton in Hv as ->.
    exists text, e. repeat split; assumption.
Qed.

(** X1: whenever the embedding collaborator is called, it is with the model
    [text-embedding-ada-002] and the cleaned lesson text, which is not empty,
    has no whitespace at either end and no two whitespace code units next to
    each other. *)
Theorem embedding_input_is_cleaned w req model input :
  EmbeddingsCreate model input ∈ snd (handle w req) →
  model = "text-embedding-ada-002"
  ∧ (∃ text, content req = JSString text ∧ input = cleanText text)
  ∧ input ≠ ""
  ∧ starts_with_whitespace input = false
  ∧ ends_with_whitespace input = false
  ∧ no_adjacent_whitespace input = true.
Proof.
  intros Hin.
  assert (∃ text, content req = JSString text ∧ cleanText text ≠ ""
                  ∧ model = "text-embedding-ada-002"
                  ∧ input = cleanText text) as (text & Hc & Hcl & -> & ->).
  { destruct (upsert_cases w req)
      as [[Hcalls _]|[(text & error & Hc & _ & Hcl & _ & Hcalls)
                     |(text & e & Hc & _ & Hcl & _ & Hcalls)]];
      rewrite Hcalls in Hin.
    - inversion Hin.
    - apply list_elem_of_singleton in Hin. injection Hin as -> ->. eauto.
    - apply elem_of_cons in Hin as [Hin|Hin];
        [injection Hin as -> ->; eauto|].
      exfalso. destruct (id_truthy (id req)); simpl in Hin;
        repeat (apply elem_of_cons in Hin as [Hin|Hin]; [discriminate|]);
        inversion Hin. }
  destruct (cleanText_shape text) as (Hs & He & Hn).
  split; [reflexivity|]. split; [eauto|]. repeat split; assumption.
Qed.

(** X4: when the embedding collaborator rejects, the response is 500 with
    the message of the error wrapped by [getEmbedding] ("Unknown error" when
    what was thrown is no [Error]); the embedding call is the only call: no id
    is generated and nothing is written. *)
Theorem embedding_failure_writes_nothing w req text error :
  content req = JSString text → cleanText text ≠ "" →
  embeddings_create w (cleanText text) = Throw error →
  status (fst (handle w req)) = 500%Z
  ∧ body (fst (handle w req)) =
      ErrorBody
        ("There was an error processing your request: Failed to get embedding: "
         +:+ message_or "Unknown error" error)
  ∧ snd (handle w req)
    = [EmbeddingsCreate "text-embedding-ada-002" (cleanText text)]
  ∧ upserted (snd (handle w req)) = [].
Proof.
  intros Hc Hcl He.
  assert (text ≠ "") as Hne by (intros ->; now apply Hcl).
  rewrite (upsert_embedding_failed w req text error Hc Hne Hcl He).
  repeat split.
Qed.

(** X5: when the write to the namespace rejects, the response is 500 with
    the message of the error ("Unknown error" when it is no [Error]); the text
    was embedded and the one vector was handed to the store, once. *)
Theorem storage_failure_is_500 w req text e error :
  content req = JSString text → cleanText text ≠ "" →
  embeddings_create w (cleanText text) = Normal e →
  namespace_upsert w [vector_literal w req e] = Throw error →
  status (fst (handle w req)) = 500%Z
  ∧ body (fst (handle w req)) =
      ErrorBody
        ("There was an error processing your request: "
         +:+ message_or "Unknown error" error)
  ∧ upserted (snd (handle w req)) = [vector_literal w req e]
  ∧ List.filter (λ c, is_embedding_call c) (snd (handle w req))
    = [EmbeddingsCreate "text-embedding-ada-002" (cleanText text)].
Proof.
  intros Hc Hcl He Hu.
  assert (text ≠ "") as Hne by (intros ->; now apply Hcl).
  destruct (upsert_embedded w req text e Hc Hne Hcl He) as [Hcalls Hresp].
  cbv zeta in Hcalls, Hresp. rewrite Hu in Hresp. rewrite Hresp, Hcalls.
  split; [reflexivity|]. split; [reflexivity|].
  destruct (id_truthy (id req)); split; reflexivity.
Qed.

(** X6: the status is 400 exactly when content is not a non-empty string,
    whatever the collaborators would answer; it is 200 exactly when the
    cleaned text is not empty and both the embedding and the write of the
    vector resolve; it is 500 in every other case. *)
Theorem upsert_status_characterised w req :
  (status (fst (handle w req)) = 400%Z
   ↔ ∀ text, content req = JSString text → text = "")
  ∧ (status (fst (handle w req)) = 200%Z
     ↔ ∃ text e, content req = JSString text ∧ cleanText text ≠ ""
                 ∧ embeddings_create w (cleanText text) = Normal e
                 ∧ namespace_upsert w [vector_literal w req e] = Normal tt)
  ∧ (status (fst (handle w req)) = 400%Z
     ∨ status (fst (handle w req)) = 200%Z
     ∨ status (fst (handle w req)) = 500%Z).
Proof.
  assert (∀ text e, content req = JSString text → cleanText text ≠ "" →
            embeddings_create w (cleanText text) = Normal e →
            text ≠ ""
            ∧ status (fst (handle w req))
              = match namespace_upsert w [vector_literal w req e] with
                | Normal _ => 200%Z
                | Throw _ => 500%Z
                end) as Hemb.
  { intros text e Hc Hcl He.
    assert (text ≠ "") as Hne by (intros ->; now apply Hcl).
    split; [exact Hne|].
    destruct (upsert_embedded w req text e Hc Hne Hcl He) as [_ Hresp].
    cbv zeta in Hresp. rewrite Hresp.
    now destruct (namespace_upsert w _). }
  assert ((∀ t, content req = JSString t → t = "")
          ∨ ∃ text, content req = JSString text ∧ text ≠ "")
    as [Hinv|(text & Hc & Hne)].
  { destruct (content req) as [| |b|n|text|l|o];
      try (left; intros t Ht; discriminate).
    destruct (String.eqb_spec text "") as [->|Hne]; [|right; eauto].
    left. intros t Ht. congruence. }
  { rewrite (upsert_invalid w req Hinv). simpl.
    split; [split; [intros _; exact Hinv|reflexivity]|].
    split; [|now left].
    split; [discriminate|].
    intros (t & e & Ht & Hcl & _). rewrite (Hinv t Ht) in Hcl.
    now destruct Hcl. }
  assert (¬ ∀ t, content req = JSString t → t = "") as Hnot
    by (intros H; apply Hne, H, Hc).
  destruct (String.eqb_spec (cleanText text) "") as [Hcl|Hcl].
  { rewrite (upsert_blank w req text Hc Hne Hcl). simpl.
    split; [split; [discriminate|intros H; now destruct Hnot]|].
    split; [|now right; right].
    split; [discriminate|].
    intros (t & e & Ht & Hcl' & _). rewrite Hc in Ht.
    injection Ht as <-. contradiction. }
  destruct (embeddings_create w (cleanText text)) as [e|error] eqn:He.
  - destruct (Hemb text e Hc Hcl He) as [_ Hst]. rewrite Hst.
    destruct (namespace_upsert w [vector_literal w req e]) as [[]|err] eqn:Hu.
    + split; [split; [discriminate|intros H; now destruct Hnot]|].
      split; [|now right; left].
      split; [intros _; exists text, e; auto|reflexivity].
    + split; [split; [discriminate|intros H; now destruct Hnot]|].
      split; [|now right; right].
      split; [discriminate|].
      intros (t & e' & Ht & _ & He' & Hu'). rewrite Hc in Ht.
      injection Ht as <-. rewrite He in He'. injection He' as <-.
      rewrite Hu in Hu'. discriminate.
  - rewrite (upsert_embedding_failed w req text error Hc Hne Hcl He). simpl.
    split; [split; [discriminate|intros H; now destruct Hnot]|].
    split; [|now right; right].
    split; [discriminate|].
    intros (t & e' & Ht & _ & He' & _). rewrite Hc in Ht.
    injection Ht as <-. rewrite He in He'. discriminate.
Qed.

(** X7: a vector is written only by a request whose text was embedded: it
    is the only vector the request writes, its values are what the embedding
    collaborator returned for the cleaned text, and without a caller's
    [content] key its metadata holds the text as it was sent, uncleaned. *)
Theorem written_vector_carries_embedding w req v :
  v ∈ upserted (snd (handle w req)) →
  upserted (snd (handle w req)) = [v]
  ∧ ∃ text,
      content req = JSString text
      ∧ embeddings_create w (cleanText text) = Normal (values v)
      ∧ (default ∅ (metadata req) !! "content" = None →
         vector_metadata v !! "content" = Some (JSString text)).
Proof.
  intros Hv.
  destruct (upsert_written w req v Hv)
    as (text & e & Hc & _ & _ & He & -> & Hup).
  split; [exact Hup|]. exists text. split; [exact Hc|]. split; [exact He|].
  intros Hnone. simpl. rewrite metadata_literal_lookup, Hnone, Hc.
  reflexivity.
Qed.

(** X8: the metadata of a written vector, key by key: [lastUpdated] is the
    handler's timestamp even when the caller sent that key; every other key
    the caller sent has the caller's value; the keys are the caller's
    together with [content] and [lastUpdated]. *)
Theorem written_metadata_keys w req v :
  v ∈ upserted (snd (handle w req)) →
  vector_metadata v !! "lastUpdated" = Some (JSString (Date_toISOString w))
  ∧ (∀ key value,
       key ≠ "lastUpdated" →
       default ∅ (metadata req) !! key = Some value →
       vector_metadata v !! key = Some value)
  ∧ dom (vector_metadata v)
    = {[ "content"; "lastUpdated" ]} ∪ dom (default ∅ (metadata req)).
Proof.
  intros Hv.
  destruct (upsert_written w req v Hv) as (text & e & _ & _ & _ & _ & -> & _).
  simpl. split; [|split].
  - now rewrite metadata_literal_lookup.
  - intros key value Hk Hm. rewrite metadata_literal_lookup, Hm.
    now case_decide.
  - unfold metadata_literal, prop, spread.
    rewrite dom_insert_L, dom_union_L, dom_insert_L, dom_empty_L.
    apply set_eq. intros x.
    rewrite !elem_of_union, !elem_of_singleton, elem_of_empty. tauto.
Qed.

Lemma Number_toString_inj n n' :
  Number_toString n = Number_toString n' → n = n'.
Proof.
  intros H. pose proof (Number_toString_parse n) as Hn.
  rewrite H, Number_toString_parse in Hn. now injection Hn.
Qed.

(** X9: two requests with numeric ids that are non-zero safe integers write
    under the same record id only when the numbers are equal; and a request
    with a non-empty string id writes under the record id of such a numeric
    one exactly when the string is the decimal numeral of the number. *)
Theorem numeric_ids_do_not_collide w w' req req' v v' n :
  id req = Some (IdNumber n) → n ≠ 0%Z → safe_integer n →
  v ∈ upserted (snd (handle w req)) →
  v' ∈ upserted (snd (handle w' req')) →
  (∀ n', id req' = Some (IdNumber n') → n' ≠ 0%Z → safe_integer n' →
         vector_id v = vector_id v' → n = n')
  ∧ (∀ s, id req' = Some (IdString s) → s ≠ "" →
          (vector_id v = vector_id v' ↔ s = Number_toString n)).
Proof.
  intros Hid Hn _ Hv Hv'.
  destruct (upsert_written w req v Hv) as (? & ? & _ & _ & _ & _ & -> & _).
  destruct (upsert_written w' req' v' Hv') as (? & ? & _ & _ & _ & _ & -> & _).
  unfold vector_literal. simpl. rewrite Hid. simpl.
  apply Z.eqb_neq in Hn. rewrite Hn. simpl. split.
  - intros n' Hid' Hn' _. rewrite Hid'. simpl.
    apply Z.eqb_neq in Hn'. rewrite Hn'. simpl. apply Number_toString_inj.
  - intros s Hid' Hs. rewrite Hid'. simpl.
    apply str_truthy_true in Hs. rewrite Hs. simpl. split; congruence.
Qed.

End Runs.

(** The untidy lesson text is embedded as ["Sketch basics"]. *)
Lemma embedding_input_is_cleaned_witness :
  "text-embedding-ada-002" = "text-embedding-ada-002"
  ∧ (∃ text, content Samples.lesson_untidy = JSString text
             ∧ "Sketch basics" = cleanText text)
  ∧ "Sketch basics" ≠ ""
  ∧ starts_with_whitespace "Sketch basics" = false
  ∧ ends_with_whitespace "Sketch basics" = false
  ∧ no_adjacent_whitespace "Sketch basics" = true.
Proof.
  apply (embedding_input_is_cleaned Samples.upsert_world Samples.lesson_untidy
           "text-embedding-ada-002" "Sketch basics").
  vm_compute. apply list_elem_of_In. simpl. tauto.
Defined.

Lemma embedding_failure_writes_nothing_witness :
  status (fst (handle Samples.embedding_down_world Samples.lesson_untidy))
  = 500%Z
  ∧ body (fst (handle Samples.embedding_down_world Samples.lesson_untidy))
    = ErrorBody
        "There was an error processing your request: Failed to get embedding: 401 invalid api key"
  ∧ snd (handle Samples.embedding_down_world Samples.lesson_untidy)
    = [EmbeddingsCreate "text-embedding-ada-002" "Sketch basics"]
  ∧ upserted (snd (handle Samples.embedding_down_world Samples.lesson_untidy))
    = [].
Proof.
  apply (embedding_failure_writes_nothing Samples.embedding_down_world
           Samples.lesson_untidy "  Sketch   basics "
           (ErrorObject "401 invalid api key"));
    [reflexivity|discriminate|reflexivity].
Defined.

Lemma storage_failure_is_500_witness :
  status (fst (handle Samples.store_down_world Samples.lesson_untidy)) = 500%Z
  ∧ body (fst (handle Samples.store_down_world Samples.lesson_untidy))
    = ErrorBody "There was an error processing your request: Unknown error".
Proof.
  destruct (storage_failure_is_500 Samples.store_down_world
              Samples.lesson_untidy "  Sketch   basics " [12; -7; 3]%Z
              NotAnError) as (H500 & Hb & _);
    [reflexivity|discriminate|reflexivity|reflexivity|].
  split; [exact H500|exact Hb].
Defined.

Lemma written_vector_carries_embedding_witness :
  upserted (snd (handle Samples.upsert_world Samples.lesson_untidy))
  = [vector_literal Samples.upsert_world Samples.lesson_untidy [12; -7; 3]%Z]
  ∧ ∃ text,
      content Samples.lesson_untidy = JSString text
      ∧ Samples.upsert_world.(embeddings_create) (cleanText text)
        = Normal [12; -7; 3]%Z
      ∧ (default ∅ (metadata Samples.lesson_untidy) !! "content" = None →
         vector_metadata
           (vector_literal Samples.upsert_world Samples.lesson_untidy
              [12; -7; 3]%Z) !! "content"
         = Some (JSString text)).
Proof.
  apply (written_vector_carries_embedding Samples.upsert_world
           Samples.lesson_untidy
           (vector_literal Samples.upsert_world Samples.lesson_untidy
              [12; -7; 3]%Z)).
  apply list_elem_of_In. vm_compute. tauto.
Defined.

(** The caller's [lastUpdated: "never"] is replaced, its [topic] kept. *)
Lemma written_metadata_keys_witness :
  let v := vector_literal Samples.upsert_world Samples.lesson_untidy
             [12; -7; 3]%Z in
  vector_metadata v !! "lastUpdated"
  = Some (JSString "2025-03-01T09:30:00.000Z")
  ∧ vector_metadata v !! "topic" = Some (JSString "CAD").
Proof.
  intros v.
  destruct (written_metadata_keys Samples.upsert_world Samples.lesson_untidy v)
    as (Hl & Hk & _).
  { apply list_elem_of_In. vm_compute. tauto. }
  split; [exact Hl|]. apply Hk; [discriminate|reflexivity].
Defined.

(** The ids 1011 and "1011" name the same record. *)
Lemma numeric_ids_do_not_collide_witness :
  vector_id (vector_literal Samples.upsert_world
               Samples.lesson_with_numeric_id [12; -7; 3]%Z)
  = vector_id (vector_literal Samples.upsert_world
                 Samples.lesson_with_content_key [12; -7; 3]%Z)
  ↔ "1011" = Number_toString 1011.
Proof.
  destruct (numeric_ids_do_not_collide Samples.upsert_world
              Samples.upsert_world Samples.lesson_with_numeric_id
              Samples.lesson_with_content_key
              (vector_literal Samples.upsert_world
                 Samples.lesson_with_numeric_id [12; -7; 3]%Z)
              (vector_literal Samples.upsert_world
                 Samples.lesson_with_content_key [12; -7; 3]%Z)
              1011%Z) as [_ Hs];
    [reflexivity|discriminate
    |unfold safe_integer; split; vm_compute; discriminate
    |apply list_elem_of_In; vm_compute; tauto
    |apply list_elem_of_In; vm_compute; tauto|].
  apply (Hs "1011"); [reflexivity|discriminate].
Defined.

End UpsertExtras.

(** ** Further properties: the chat handler *)

Module ChatExtras.

Import Chat Shape JSFacts ChatFacts.

Section Steps.

Implicit Types (w : World) (req : ChatRequest) (σ : Server).
Implicit Types (reqs : list (World * ChatRequest)).

Lemma reachable_serve reqs : ∀ σ,
  reachable σ → reachable (snd (serve reqs σ)).
Proof.
  induction reqs as [|[w req] rest IH]; intros σ Hσ; [exact Hσ|].
  rewrite serve_cons. simpl. apply IH. now apply reachable_handle.
Qed.

(** What an accepted request is, in terms of its [messages]. *)
Lemma accepted_iff req :
  accepted req = true
  ↔ ∃ init m c, messages req = Some (init ++ [m]) ∧ content m = Some c
                ∧ c ≠ "".
Proof.
  unfold accepted. split.
  - intros H. apply andb_true_iff in H as [H1 H2].
    apply negb_true_iff in H1, H2.
    destruct (messages req) as [l|]; [|discriminate].
    destruct (exists_last (l := l)) as (init & m & ->);
      [intros ->; discriminate|].
    rewrite latestMessage_of_snoc in H2. simpl in H2.
    destruct (content m) as [c|] eqn:Hc; [|discriminate].
    apply negb_false_iff, str_truthy_true in H2.
    exists init, m, c. repeat split; assumption.
  - intros (init & m & c & -> & Hc & Hne).
    rewrite latestMessage_of_snoc. simpl. rewrite Hc.
    apply str_truthy_true in Hne. rewrite Hne.
    destruct init; reflexivity.
Qed.

Lemma accepted_userMessage req :
  accepted req = true → userMessage_of req ≠ "".
Proof.
  intros H. apply accepted_iff in H as (init & m & c & Hm & Hc & Hne).
  unfold userMessage_of. rewrite Hm, latestMessage_of_snoc. simpl.
  now rewrite Hc.
Qed.

Lemma responseText_of_nonempty result : responseText_of result ≠ "".
Proof.
  unfold responseText_of. destruct (output result) as [o|]; [|discriminate].
  destruct (str_truthy o) eqn:Ho; [now apply str_truthy_true|discriminate].
Qed.

(** Where a session object of the state after a request comes from: it was
    there before, or it is the requesting user's session (new, or the old one
    after filter propagation), possibly with the turn appended. *)
Lemma handle_sessions_exact w req σ l' x :
  heap (snd (handle w req σ)) !! l' = Some x →
  let f := metadataFilter_of (lessonIds_of req) in
  heap σ !! l' = Some x
  ∨ (accepted req = true
     ∧ ∃ base,
         (base = new_session f
          ∨ ∃ s, heap σ !! l' = Some s ∧ base = with_filter f s)
         ∧ (x = base
            ∨ ∃ result,
                x = after_turn (userMessage_of req) (responseText_of result)
                      base)).
Proof.
  intros Hx f.
  destruct (accepted req) eqn:Hacc;
    [|rewrite handle_rejected in Hx by assumption; now left].
  destruct (conversationHistories σ !! userId_of req) as [l|] eqn:Hu.
  - destruct (heap σ !! l) as [s|] eqn:Hl;
      [|rewrite (handle_dangling w req σ l) in Hx by assumption; now left].
    rewrite (handle_existing w req σ l s Hacc Hu Hl) in Hx.
    cbv zeta in Hx. fold f in Hx.
    destruct (invoke w _ _ _) as [result|error]; simpl in Hx;
      apply lookup_insert_Some in Hx as [[<- <-]|[_ Hx]];
      try (now left); right; (split; [reflexivity|]);
      exists (with_filter f s); (split; [right; eauto|]); eauto.
  - rewrite (handle_new w req σ Hacc Hu) in Hx. cbv zeta in Hx. fold f in Hx.
    destruct (fromExistingIndex w f) as [[]|error]; [|now left].
    destruct (createOpenAIToolsAgent w _) as [[]|error]; [|now left].
    destruct (invoke w _ _ _) as [result|error]; simpl in Hx;
      apply lookup_insert_Some in Hx as [[<- <-]|[_ Hx]];
      try (now left); right; (split; [reflexivity|]);
      exists (new_session f); (split; [now left|]); eauto.
Qed.

(** A property of session objects holds in every reachable state when new
    sessions have it and it is kept by the propagation of a derived filter
    and by a turn with a non-empty message and the response text. *)
Lemma reachable_sessions_exact (P : ChatSession → Prop) σ :
  (∀ ids, P (new_session (metadataFilter_of ids))) →
  (∀ ids s, P s → P (with_filter (metadataFilter_of ids) s)) →
  (∀ m result s, m ≠ "" → P s →
                 P (after_turn m (responseText_of result) s)) →
  reachable σ → all_sessions P σ.
Proof.
  intros Hnew Hfilter Hturn. induction 1 as [|w req σ _ IH].
  - intros l s H. simpl in H. now rewrite lookup_empty in H.
  - intros l x Hx.
    destruct (handle_sessions_exact w req σ l x Hx)
      as [Hold|(Hacc & base & Hbase & Hx')]; [eapply IH, Hold|].
    assert (P base) as Pbase.
    { destruct Hbase as [->|(s & Hs & ->)]; [apply Hnew|].
      eapply Hfilter, IH, Hs. }
    destruct Hx' as [->|(result & ->)]; [exact Pbase|].
    apply Hturn; [now apply accepted_userMessage|exact Pbase].
Qed.

Lemma handle_entries_distinct w req σ :
  entries_live σ → entries_distinct σ →
  entries_distinct (snd (handle w req σ)).
Proof.
  intros Hlive Hdist.
  destruct (handle_cases w req σ)
    as [->|[[_ Hc]|[(l & s & s' & _ & _ & Hc & _)
                   |(s' & Hu & Hc & _)]]];
    [exact Hdist| | |]; unfold entries_distinct; rewrite Hc;
    [exact Hdist|exact Hdist|].
  intros u u' l Hl Hl'.
  assert (∀ v, conversationHistories σ !! v ≠ Some (fresh (dom (heap σ))))
    as Hfresh.
  { intros v Hv. apply Hlive in Hv. apply elem_of_dom in Hv.
    now apply is_fresh in Hv. }
  apply lookup_insert_Some in Hl as [[<- <-]|[Hne Hl]];
    apply lookup_insert_Some in Hl' as [[<- Heq]|[Hne' Hl']].
  - reflexivity.
  - now apply Hfresh in Hl'.
  - subst l. now apply Hfresh in Hl.
  - eapply Hdist; eassumption.
Qed.

Lemma reachable_entries_distinct σ : reachable σ → entries_distinct σ.
Proof.
  induction 1 as [|w req σ Hσ IH].
  - intros u u' l H. simpl in H. now rewrite lookup_empty in H.
  - apply handle_entries_distinct; [now apply reachable_entries_live|exact IH].
Qed.

(** A request leaves the sessions of the other users as they are. *)
Lemma handle_other_user w req σ u :
  entries_live σ → entries_distinct σ → u ≠ userId_of req →
  session_of (snd (handle w req σ)) u = session_of σ u.
Proof.
  intros Hlive Hdist Hne.
  destruct (handle_cases w req σ)
    as [->|[[Hh Hc]|[(l & s & s' & Hu & _ & Hc & Hh & _)
                    |(s' & Hu & Hc & Hh & _)]]];
    [reflexivity| | |]; unfold session_of; rewrite Hh, Hc.
  - reflexivity.
  - destruct (conversationHistories σ !! u) as [l'|] eqn:Hu'; [|reflexivity].
    simpl. apply lookup_insert_ne. intros <-.
    apply Hne. eapply Hdist; eassumption.
  - rewrite lookup_insert_ne by congruence.
    destruct (conversationHistories σ !! u) as [l'|] eqn:Hu'; [|reflexivity].
    simpl. apply lookup_insert_ne. intros <-.
    apply Hlive in Hu'. apply elem_of_dom in Hu'. now apply is_fresh in Hu'.
Qed.

(** An entry of the map is never removed or redirected. *)
Lemma handle_keeps_entry w req σ u l :
  conversationHistories σ !! u = Some l →
  conversationHistories (snd (handle w req σ)) !! u = Some l.
Proof.
  intros Hu.
  destruct (handle_cases w req σ)
    as [->|[[_ Hc]|[(l0 & s & s' & _ & _ & Hc & _)
                   |(s' & Hnone & Hc & _)]]];
    [exact Hu| | |]; rewrite Hc; [exact Hu|exact Hu|].
  rewrite lookup_insert_ne; [exact Hu|]. intros <-. congruence.
Qed.

End Steps.

(** *** Requests *)

Section Requests.

Implicit Types (w : World) (req : ChatRequest) (σ : Server).

Lemma handle_status w req σ :
  accepted req = true →
  status (fst (handle w req σ)) = 200%Z
  ∨ status (fst (handle w req σ)) = 500%Z.
Proof.
  intros Hacc.
  destruct (conversationHistories σ !! userId_of req) as [l|] eqn:Hu.
  - destruct (heap σ !! l) as [s|] eqn:Hl;
      [|rewrite (handle_dangling w req σ l) by assumption; now right].
    rewrite (handle_existing w req σ l s Hacc Hu Hl). cbv zeta.
    destruct (invoke w _ _ _); [now left|now right].
  - rewrite (handle_new w req σ Hacc Hu). cbv zeta.
    destruct (fromExistingIndex w _) as [[]|]; [|now right].
    destruct (createOpenAIToolsAgent w _) as [[]|]; [|now right].
    destruct (invoke w _ _ _); [now left|now right].
Qed.

(** X10: the response is 400 exactly when [messages] is not a non-empty
    array whose last element has a non-empty content (so an empty-string
    content is rejected like a missing one), and then the state is left as it
    is; every other request is answered with 200 or 500. *)
Theorem chat_status_characterised w req σ :
  (status (fst (handle w req σ)) = 400%Z
   ↔ ¬ ∃ init m c, messages req = Some (init ++ [m])
                   ∧ content m = Some c ∧ c ≠ "")
  ∧ (status (fst (handle w req σ)) = 400%Z → snd (handle w req σ) = σ)
  ∧ (status (fst (handle w req σ)) = 400%Z
     ∨ status (fst (handle w req σ)) = 200%Z
     ∨ status (fst (handle w req σ)) = 500%Z).
Proof.
  rewrite <- accepted_iff.
  destruct (accepted req) eqn:Hacc.
  - destruct (handle_status w req σ Hacc) as [H|H]; rewrite H.
    + split; [split; [discriminate|congruence]|].
      split; [discriminate|now right; left].
    + split; [split; [discriminate|congruence]|].
      split; [discriminate|now right; right].
  - rewrite (handle_rejected w req σ Hacc). simpl.
    split; [split; [discriminate|reflexivity]|].
    split; [reflexivity|now left].
Qed.

(** The handler reads a request through five values only. *)
Lemma POST_depends w req req' :
  no_messages (messages req) = no_messages (messages req') →
  invalid_message (latestMessage_of (messages req))
  = invalid_message (latestMessage_of (messages req')) →
  userId_of req = userId_of req' →
  lessonIds_of req = lessonIds_of req' →
  userMessage_of req = userMessage_of req' →
  POST w req = POST w req'.
Proof.
  intros H1 H2 H3 H4 H5. unfold POST. cbv zeta.
  now rewrite H1, H2, H3, H4, H5.
Qed.

(** X11: only the content of the last message of a request matters: the
    messages before it and every role are ignored, so a request with a whole
    conversation is served exactly as the request with its last message
    alone. *)
Theorem only_last_message_matters w σ init m role' user ids :
  handle w {| messages := Some (init ++ [m]); userId := user;
              lessonIds := ids |} σ
  = handle w {| messages := Some [ {| role := role'; content := content m |} ];
                userId := user; lessonIds := ids |} σ.
Proof.
  unfold handle. rewrite (POST_depends w _
    {| messages := Some [ {| role := role'; content := content m |} ];
       userId := user; lessonIds := ids |}); try reflexivity.
  - simpl. destruct init; reflexivity.
  - simpl messages. rewrite latestMessage_of_snoc. reflexivity.
  - unfold userMessage_of. simpl messages.
    rewrite latestMessage_of_snoc. reflexivity.
Qed.

(** X12: when the session of a new user cannot be constructed (the vector
    store or the agent constructor rejects), the response is the 500 of that
    error, no session is stored (map and session objects are as before, so
    the next request constructs again) and the agent is not invoked. *)
Theorem construction_failure_stores_nothing w req σ error :
  accepted req = true →
  conversationHistories σ !! userId_of req = None →
  let f := metadataFilter_of (lessonIds_of req) in
  fromExistingIndex w f = Throw error
  ∨ (fromExistingIndex w f = Normal tt
     ∧ createOpenAIToolsAgent w [retrieverTool_of f] = Throw error) →
  fst (handle w req σ) = error_500 error
  ∧ heap (snd (handle w req σ)) = heap σ
  ∧ conversationHistories (snd (handle w req σ)) = conversationHistories σ
  ∧ session_of (snd (handle w req σ)) (userId_of req) = None
  ∧ (∃ new, calls (snd (handle w req σ)) = calls σ ++ new
            ∧ invocations new = []).
Proof.
  intros Hacc Hu f Hfail.
  rewrite (handle_new w req σ Hacc Hu). cbv zeta. fold f.
  destruct Hfail as [->|[-> ->]]; simpl;
    (split; [reflexivity|]); (split; [reflexivity|]);
    (split; [reflexivity|]);
    (split; [unfold session_of; simpl; now rewrite Hu|]).
  - exists [FromExistingIndex f]. split; reflexivity.
  - exists [FromExistingIndex f; CreateOpenAIToolsAgent [retrieverTool_of f]].
    split; [now rewrite <- app_assoc|reflexivity].
Qed.

(** X13: a request of a user whose session exists constructs nothing: the
    one call it makes is the invocation of the agent, with the session's
    executor after filter propagation, the content of the last message as
    input, and the history as it was before the request (the new message is
    not in it); the map is left as it is. *)
Theorem existing_session_is_reused w req σ s :
  accepted req = true →
  session_of σ (userId_of req) = Some s →
  let f := metadataFilter_of (lessonIds_of req) in
  calls (snd (handle w req σ))
  = calls σ ++ [Invoke (agentExecutor (with_filter f s)) (userMessage_of req)
                  (chatHistory s)]
  ∧ conversationHistories (snd (handle w req σ)) = conversationHistories σ
  ∧ dom (heap (snd (handle w req σ))) = dom (heap σ).
Proof.
  intros Hacc Hs f. unfold session_of in Hs.
  destruct (conversationHistories σ !! userId_of req) as [l|] eqn:Hu;
    [|discriminate].
  simpl in Hs. rewrite (handle_existing w req σ l s Hacc Hu Hs).
  cbv zeta. fold f. rewrite chatHistory_with_filter.
  assert (∀ x, dom (<[l := x]> (heap σ)) = dom (heap σ)) as Hdom.
  { intros x. rewrite dom_insert_L.
    assert (l ∈ dom (heap σ)) by (apply elem_of_dom; eauto).
    apply set_eq. intros y. rewrite elem_of_union, elem_of_singleton.
    split; [intros [->|]; assumption|tauto]. }
  destruct (invoke w _ _ _); simpl; repeat split; apply Hdom.
Qed.

(** X20: [debug.appliedFilter] reports the filter derived from the request,
    not the filter in force: a successful request without lesson ids of a
    user whose session exists reports no filter, while the agent was invoked
    with the session's executor unchanged, whose retriever keeps the filter
    set by an earlier request. *)
Theorem appliedFilter_is_not_the_filter_in_force w req σ s :
  session_of σ (userId_of req) = Some s →
  lessonIds_of req = [] →
  status (fst (handle w req σ)) = 200%Z →
  appliedFilter_of (fst (handle w req σ)) = Some JSUndefined
  ∧ last (calls (snd (handle w req σ)))
    = Some (Invoke (agentExecutor s) (userMessage_of req) (chatHistory s))
  ∧ ∃ s', session_of (snd (handle w req σ)) (userId_of req) = Some s'
          ∧ session_filter s' = session_filter s.
Proof.
  intros Hs Hids H200.
  destruct (chat_200 w req σ H200)
    as (s1 & result & pre & _ & Hprior & _ & _ & Hr & Hs' & Hcalls).
  assert (s1 = s) as ->.
  { destruct Hprior as [(l & s0 & Hu & Hl & ->)|[Hu _]].
    - rewrite (session_of_lookup σ _ l Hu), Hl in Hs. injection Hs as ->.
      apply with_filter_absent. now rewrite Hids.
    - rewrite (session_of_absent σ _ Hu) in Hs. discriminate. }
  rewrite Hr, Hcalls, Hs', Hids. simpl.
  split; [reflexivity|]. split; [apply last_snoc|].
  eexists. split; [reflexivity|].
  apply session_filter_executor, agentExecutor_after_turn.
Qed.

End Requests.

(** *** Invariants of the reachable states *)

Section Invariants.

Implicit Types (w : World) (req : ChatRequest) (σ : Server).
Implicit Types (reqs : list (World * ChatRequest)).

Lemma session_of_heap σ u s :
  session_of σ u = Some s → ∃ l, heap σ !! l = Some s.
Proof.
  unfold session_of.
  destruct (conversationHistories σ !! u) as [l|]; [|discriminate]. eauto.
Qed.

(** X16: in every reachable state, whatever requests succeeded or failed
    before, the history of every user has at most 10 entries, an even number
    of them, alternating user and assistant messages. *)
Theorem reachable_histories_bounded σ u :
  reachable σ →
  length (history_of σ u) ≤ 10
  ∧ Nat.Even (length (history_of σ u))
  ∧ alternating (history_of σ u) = true.
Proof.
  intros Hσ. unfold history_of.
  destruct (session_of σ u) as [s|] eqn:Hs; simpl;
    [|repeat split; [lia|now exists 0]].
  destruct (session_of_heap σ u s Hs) as [l Hl].
  assert (alternating (chatHistory s) = true) as Halt
    by (eapply (reachable_histories_alternate σ Hσ), Hl).
  split; [|split; [now apply alternating_even|exact Halt]].
  eapply (reachable_all_sessions (λ s, length (chatHistory s) ≤ 10) σ);
    [..|exact Hσ|exact Hl].
  - intros f. simpl. lia.
  - intros f x Hx. now rewrite chatHistory_with_filter.
  - intros m r x _. rewrite chatHistory_after_turn, slice_last_length. lia.
Qed.

(** X17: no message of a reachable history has an empty content: the user
    messages passed the validation, and the assistant messages are the
    agent's output or the fallback; likewise the response text of every 200
    response is not empty. *)
Theorem no_empty_message w req σ u :
  reachable σ →
  Forall (λ m, message_content m ≠ "") (history_of σ u)
  ∧ (∀ response debug,
       body (fst (handle w req σ)) = ChatBody response debug →
       response ≠ "").
Proof.
  intros Hσ. split.
  - unfold history_of.
    destruct (session_of σ u) as [s|] eqn:Hs; simpl; [|constructor].
    destruct (session_of_heap σ u s Hs) as [l Hl].
    eapply (reachable_sessions_exact
              (λ s, Forall (λ m, message_content m ≠ "") (chatHistory s)) σ);
      [..|exact Hσ|exact Hl].
    + intros ids. constructor.
    + intros ids x Hx. now rewrite chatHistory_with_filter.
    + intros m result x Hm Hx. rewrite chatHistory_after_turn.
      unfold slice_last. apply Forall_drop, Forall_app. split; [exact Hx|].
      repeat constructor; simpl; [exact Hm|apply responseText_of_nonempty].
  - intros response debug Hb.
    destruct (accepted req) eqn:Hacc;
      [|rewrite handle_rejected in Hb by assumption; discriminate].
    destruct (handle_status w req σ Hacc) as [H200|H500].
    + destruct (chat_200 w req σ H200)
        as (s1 & result & pre & _ & _ & _ & _ & Hr & _).
      rewrite Hr in Hb. injection Hb as <- _.
      apply responseText_of_nonempty.
    + exfalso. revert Hb H500.
      destruct (conversationHistories σ !! userId_of req) as [l|] eqn:Hu.
      * destruct (heap σ !! l) as [s|] eqn:Hl;
          [|rewrite (handle_dangling w req σ l) by assumption; discriminate].
        rewrite (handle_existing w req σ l s Hacc Hu Hl). cbv zeta.
        destruct (invoke w _ _ _); discriminate.
      * rewrite (handle_new w req σ Hacc Hu). cbv zeta.
        destruct (fromExistingIndex w _) as [[]|]; [|discriminate].
        destruct (createOpenAIToolsAgent w _) as [[]|]; [|discriminate].
        destruct (invoke w _ _ _); discriminate.
Qed.

Lemma derived_metadataFilter_of ids : derived_filter (metadataFilter_of ids).
Proof.
  destruct ids as [|i ids]; [now left|].
  right. exists (i :: ids). split; [discriminate|reflexivity].
Qed.

(** Filter propagation leaves a standard session as it is. *)
Lemma with_filter_standard f' s :
  standard_session s → with_filter f' s = s.
Proof. intros (f & _ & He). exact (with_filter_as_created f f' s He). Qed.

Lemma reachable_standard σ : reachable σ → all_sessions standard_session σ.
Proof.
  apply reachable_sessions_exact.
  - intros ids. exists (metadataFilter_of ids).
    split; [apply derived_metadataFilter_of|reflexivity].
  - intros ids x Hx. now rewrite (with_filter_standard _ x Hx).
  - intros m result x _ (f & Hf & He).
    exists f. rewrite agentExecutor_after_turn. auto.
Qed.

(** X18: in every reachable state the executor of every user's session is
    exactly as [createNewUserSession] built it: verbose, with the one tool
    [fusion360_search], which has no [retriever] property and closes over the
    retriever of [k: 3], namespace [ns1] and text key [content]; store and
    retriever carry one and the same filter, which is [undefined] or
    [{ id: { $in: ids } }] with a non-empty [ids], never an empty [$in]. *)
Theorem reachable_sessions_standard σ u s :
  reachable σ → session_of σ u = Some s → standard_session s.
Proof.
  intros Hσ Hs. destruct (session_of_heap σ u s Hs) as [l Hl].
  eapply (reachable_standard σ Hσ), Hl.
Qed.

(** X14: requests of other users, any number of them and whatever their
    outcome, leave a user's session (history and executor) as it is; no two
    users share a session object. *)
Theorem other_users_untouched reqs : ∀ σ u,
  reachable σ →
  Forall (λ x, userId_of (snd x) ≠ u) reqs →
  session_of (snd (serve reqs σ)) u = session_of σ u
  ∧ entries_distinct (snd (serve reqs σ)).
Proof.
  induction reqs as [|[w req] rest IH]; intros σ u Hσ Hall.
  - split; [reflexivity|now apply reachable_entries_distinct].
  - rewrite serve_cons. simpl snd.
    apply Forall_cons in Hall as [Hne Hall]. simpl in Hne.
    destruct (IH (snd (handle w req σ)) u) as [Hs Hd];
      [now apply reachable_handle|exact Hall|].
    split; [|exact Hd]. rewrite Hs.
    apply handle_other_user;
      [now apply reachable_entries_live|now apply reachable_entries_distinct
      |congruence].
Qed.

(** X15: a session is never removed or replaced: a user who has a session
    keeps the same session object through any further requests, of any user
    and whatever their outcome. *)
Theorem sessions_are_never_removed reqs : ∀ σ u l,
  conversationHistories σ !! u = Some l →
  conversationHistories (snd (serve reqs σ)) !! u = Some l
  ∧ (reachable σ → is_Some (session_of (snd (serve reqs σ)) u)).
Proof.
  assert (∀ reqs σ u l, conversationHistories σ !! u = Some l →
            conversationHistories (snd (serve reqs σ)) !! u = Some l) as Hkeep.
  { intros reqs'. induction reqs' as [|[w req] rest IH]; intros σ u l Hu;
      [exact Hu|].
    rewrite serve_cons. simpl snd. apply IH. now apply handle_keeps_entry. }
  intros σ u l Hu. split; [now apply Hkeep|].
  intros Hσ. unfold session_of. rewrite (Hkeep reqs σ u l Hu). simpl.
  apply (reachable_entries_live (snd (serve reqs σ))
           (reachable_serve reqs σ Hσ) u l).
  now apply Hkeep.
Qed.

Lemma handle_same_user_no_ids w req σ l s :
  conversationHistories σ !! userId_of req = Some l →
  heap σ !! l = Some s →
  lessonIds_of req = [] →
  ∃ s', heap (snd (handle w req σ)) !! l = Some s'
        ∧ agentExecutor s' = agentExecutor s.
Proof.
  intros Hu Hl Hids.
  destruct (accepted req) eqn:Hacc;
    [|rewrite handle_rejected by assumption; eauto].
  rewrite (handle_existing w req σ l s Hacc Hu Hl). cbv zeta.
  rewrite Hids.
  rewrite (with_filter_absent (metadataFilter_of []) s eq_refl).
  destruct (invoke w _ _ _); simpl; rewrite lookup_insert_eq; eexists;
    (split; [reflexivity|]); [apply agentExecutor_after_turn|reflexivity].
Qed.

(** X19: a filter stays in force: through any further requests, as long as
    those of the user carry no lesson ids (those of other users may carry
    any), the user's session keeps its executor, and so the filter of its
    retriever. *)
Theorem filter_stays_in_force reqs : ∀ σ u s,
  reachable σ →
  session_of σ u = Some s →
  Forall (λ x, userId_of (snd x) = u → lessonIds_of (snd x) = []) reqs →
  ∃ s', session_of (snd (serve reqs σ)) u = Some s'
        ∧ agentExecutor s' = agentExecutor s
        ∧ session_filter s' = session_filter s.
Proof.
  induction reqs as [|[w req] rest IH]; intros σ u s Hσ Hs Hall.
  - exists s. auto.
  - rewrite serve_cons. simpl snd.
    apply Forall_cons in Hall as [Hreq Hall]. simpl in Hreq.
    assert (∃ s1, session_of (snd (handle w req σ)) u = Some s1
                  ∧ agentExecutor s1 = agentExecutor s) as (s1 & Hs1 & He1).
    { destruct (decide (userId_of req = u)) as [Heq|Hne].
      - unfold session_of in Hs.
        destruct (conversationHistories σ !! u) as [l|] eqn:Hu;
          [|discriminate].
        simpl in Hs. subst u.
        destruct (handle_same_user_no_ids w req σ l s Hu Hs (Hreq eq_refl))
          as (s1 & Hl1 & He1).
        exists s1. split; [|exact He1].
        unfold session_of. now rewrite (handle_keeps_entry w req σ _ l Hu).
      - exists s. split; [|reflexivity]. rewrite <- Hs.
        apply handle_other_user;
          [now apply reachable_entries_live
          |now apply reachable_entries_distinct|congruence]. }
    destruct (IH (snd (handle w req σ)) u s1) as (s' & Hs' & He' & _);
      [now apply reachable_handle|exact Hs1|exact Hall|].
    exists s'. split; [exact Hs'|].
    split; [congruence|]. apply session_filter_executor. congruence.
Qed.

End Invariants.

(** *** The filter in force *)

Section Fixed.

Implicit Types (w : World) (req : ChatRequest) (σ : Server).
Implicit Types (reqs : list (World * ChatRequest)).

(** One request, of any user and with any lesson ids, leaves the executor
    of a session of a reachable state as it is. *)
Lemma handle_keeps_executor w req σ u s :
  reachable σ →
  session_of σ u = Some s →
  ∃ s1, session_of (snd (handle w req σ)) u = Some s1
        ∧ agentExecutor s1 = agentExecutor s.
Proof.
  intros Hσ Hs.
  destruct (decide (userId_of req = u)) as [Heq|Hne].
  - destruct (session_of_heap σ u s Hs) as [l0 Hl0].
    pose proof (reachable_standard σ Hσ l0 s Hl0) as Hstd.
    unfold session_of in Hs.
    destruct (conversationHistories σ !! u) as [l|] eqn:Hu; [|discriminate].
    simpl in Hs. subst u.
    destruct (accepted req) eqn:Hacc;
      [|rewrite handle_rejected by assumption; exists s; split; [|reflexivity];
        unfold session_of; simpl; now rewrite Hu].
    rewrite (handle_existing w req σ l s Hacc Hu Hs). cbv zeta.
    rewrite (with_filter_standard _ s Hstd).
    destruct (invoke w _ _ _); simpl; eexists;
      (split; [unfold session_of; simpl; rewrite Hu; simpl;
               apply lookup_insert_eq|]);
      [apply agentExecutor_after_turn|reflexivity].
  - exists s. split; [|reflexivity]. rewrite <- Hs.
    apply handle_other_user;
      [now apply reachable_entries_live
      |now apply reachable_entries_distinct|congruence].
Qed.

(** X23: the filter in force is fixed when the session is created: through
    any further requests, of any user and with any lesson ids, a session
    keeps its executor, and with it the filter of the retriever its search
    tool closes over; lesson ids sent later are reported in
    [debug.appliedFilter] only. *)
Theorem filter_is_fixed_at_creation reqs : ∀ σ u s,
  reachable σ →
  session_of σ u = Some s →
  ∃ s', session_of (snd (serve reqs σ)) u = Some s'
        ∧ agentExecutor s' = agentExecutor s
        ∧ filter_in_force s' = filter_in_force s.
Proof.
  induction reqs as [|[w req] rest IH]; intros σ u s Hσ Hs.
  - exists s. auto.
  - rewrite serve_cons. simpl snd.
    destruct (handle_keeps_executor w req σ u s Hσ Hs) as (s1 & Hs1 & He1).
    destruct (IH (snd (handle w req σ)) u s1) as (s' & Hs' & He' & _);
      [now apply reachable_handle|exact Hs1|].
    exists s'. split; [exact Hs'|].
    split; [congruence|]. apply filter_in_force_executor. congruence.
Qed.

End Fixed.

(** *** The theorems at the sample requests *)

Lemma reachable_two_users : reachable Samples.two_users.
Proof.
  unfold Samples.two_users, Samples.after_first_turn.
  apply reachable_handle, reachable_handle, reachable_initial.
Qed.

(** The index cannot be opened for the first request of [u1]. *)
Lemma construction_failure_stores_nothing_witness :
  fst (handle Samples.index_down_world (Samples.ask "hi" None) initial)
  = error_500 (ErrorObject "index not found")
  ∧ session_of (snd (handle Samples.index_down_world (Samples.ask "hi" None)
                       initial)) "u1" = None.
Proof.
  destruct (construction_failure_stores_nothing Samples.index_down_world
              (Samples.ask "hi" None) initial (ErrorObject "index not found"))
    as (Hr & _ & _ & Hs & _);
    [reflexivity|reflexivity|left; reflexivity|].
  split; [exact Hr|exact Hs].
Defined.

(** The second request of [u1] makes one call, the invocation. *)
Lemma existing_session_is_reused_witness :
  calls (snd (handle Samples.chat_world (Samples.ask "again" None)
                Samples.after_first_turn))
  = calls Samples.after_first_turn
      ++ [Invoke (agentExecutor (new_session (id_in ["1001"; "1002"])))
            "again" [HumanMessage "hi"; AIMessage "Answer to: hi"]].
Proof.
  destruct (existing_session_is_reused Samples.chat_world
              (Samples.ask "again" None) Samples.after_first_turn
              (after_turn "hi" "Answer to: hi"
                 (new_session (id_in ["1001"; "1002"]))))
    as (Hcalls & _); [reflexivity|reflexivity|].
  exact Hcalls.
Defined.

(** The second request of [u1], without lesson ids, reports no filter while
    the agent is invoked with the executor of the first request, whose
    retriever filters by lessons 1001 and 1002. *)
Lemma appliedFilter_is_not_the_filter_in_force_witness :
  let s := after_turn "hi" "Answer to: hi"
             (new_session (id_in ["1001"; "1002"])) in
  filter_in_force s = Some (id_in ["1001"; "1002"])
  ∧ appliedFilter_of (fst (handle Samples.chat_world
                             (Samples.ask "again" None)
                             Samples.after_first_turn)) = Some JSUndefined
  ∧ last (calls (snd (handle Samples.chat_world (Samples.ask "again" None)
                        Samples.after_first_turn)))
    = Some (Invoke (agentExecutor s) "again" (chatHistory s)).
Proof.
  intros s.
  destruct (appliedFilter_is_not_the_filter_in_force Samples.chat_world
              (Samples.ask "again" None) Samples.after_first_turn s)
    as (Ha & Hi & _); [reflexivity|reflexivity|reflexivity|].
  split; [reflexivity|]. split; [exact Ha|exact Hi].
Defined.

Lemma reachable_histories_bounded_witness :
  length (history_of (snd (serve Samples.eleven_turns initial)) "u1") ≤ 10
  ∧ Nat.Even (length (history_of (snd (serve Samples.eleven_turns initial))
                        "u1"))
  ∧ alternating (history_of (snd (serve Samples.eleven_turns initial)) "u1")
    = true.
Proof.
  apply (reachable_histories_bounded (snd (serve Samples.eleven_turns initial))
           "u1").
  apply reachable_serve, reachable_initial.
Defined.

Lemma no_empty_message_witness :
  Forall (λ m, message_content m ≠ "") (history_of Samples.two_users "u1")
  ∧ (∀ response debug,
       body (fst (handle Samples.silent_world (Samples.ask "again" None)
                    Samples.two_users)) = ChatBody response debug →
       response ≠ "").
Proof.
  apply (no_empty_message Samples.silent_world (Samples.ask "again" None)
           Samples.two_users "u1").
  apply reachable_two_users.
Defined.

Lemma reachable_sessions_standard_witness :
  standard_session
    (after_turn "hi" "Answer to: hi" (new_session (id_in ["1001"; "1002"]))).
Proof.
  apply (reachable_sessions_standard Samples.two_users "u1").
  - apply reachable_two_users.
  - reflexivity.
Defined.

(** Eleven turns of [u1] leave the session of [u2] as it is. *)
Lemma other_users_untouched_witness :
  session_of (snd (serve Samples.eleven_turns Samples.two_users)) "u2"
  = session_of Samples.two_users "u2"
  ∧ entries_distinct (snd (serve Samples.eleven_turns Samples.two_users)).
Proof.
  apply (other_users_untouched Samples.eleven_turns Samples.two_users "u2").
  - apply reachable_two_users.
  - repeat constructor; discriminate.
Defined.

Lemma sessions_are_never_removed_witness :
  conversationHistories (snd (serve Samples.later_turns Samples.two_users))
    !! "u1" = Some 1%positive
  ∧ (reachable Samples.two_users →
     is_Some (session_of (snd (serve Samples.later_turns Samples.two_users))
                "u1")).
Proof.
  apply (sessions_are_never_removed Samples.later_turns Samples.two_users
           "u1" 1%positive).
  reflexivity.
Defined.

(** Through three later requests, one of them of [u1] and without lesson
    ids, the filter of the first request of [u1] stays in force. *)
Lemma filter_stays_in_force_witness :
  ∃ s', session_of (snd (serve Samples.later_turns Samples.two_users)) "u1"
        = Some s'
        ∧ filter_in_force s' = Some (id_in ["1001"; "1002"]).
Proof.
  destruct (filter_stays_in_force Samples.later_turns Samples.two_users "u1"
              (after_turn "hi" "Answer to: hi"
                 (new_session (id_in ["1001"; "1002"]))))
    as (s' & Hs & He & _).
  - apply reachable_two_users.
  - reflexivity.
  - repeat constructor; simpl; (discriminate || reflexivity).
  - exists s'. split; [exact Hs|].
    rewrite (filter_in_force_executor _ _ He). reflexivity.
Defined.

(** *** New sessions and failed requests *)

Section Outcomes.

Implicit Types (w : World) (req : ChatRequest) (σ : Server).

(** X21: the first accepted request of a user, when the construction
    resolves, makes three calls in this order: the store is opened with the
    derived filter, the agent is created over the one search tool, and the
    agent is invoked with an empty history.  The session is a new object (no
    session object that existed is overwritten), it is registered for the
    user whatever the invocation's outcome, and the retriever its search tool
    closes over has the derived filter. *)
Theorem first_request_constructs_session w req σ :
  accepted req = true →
  conversationHistories σ !! userId_of req = None →
  let f := metadataFilter_of (lessonIds_of req) in
  fromExistingIndex w f = Normal tt →
  createOpenAIToolsAgent w [retrieverTool_of f] = Normal tt →
  let σ' := snd (handle w req σ) in
  calls σ' = calls σ ++ [FromExistingIndex f;
                         CreateOpenAIToolsAgent [retrieverTool_of f];
                         Invoke (agentExecutor (new_session f))
                           (userMessage_of req) []]
  ∧ ∃ l s',
      conversationHistories σ' !! userId_of req = Some l
      ∧ heap σ !! l = None
      ∧ heap σ' !! l = Some s'
      ∧ agentExecutor s' = agentExecutor (new_session f)
      ∧ filter_in_force s' = Some f
      ∧ ∀ l', l' ≠ l → heap σ' !! l' = heap σ !! l'.
Proof.
  intros Hacc Hu f Hs Ha σ'. subst σ'.
  rewrite (handle_new w req σ Hacc Hu). cbv zeta. fold f. rewrite Hs, Ha.
  assert (heap σ !! fresh (dom (heap σ)) = None) as Hfresh
    by (apply not_elem_of_dom, is_fresh).
  destruct (invoke w _ _ _) as [result|error]; simpl;
    (split; [now rewrite <- !app_assoc|]);
    exists (fresh (dom (heap σ))); eexists;
    (split; [apply lookup_insert_eq|]); (split; [exact Hfresh|]);
    (split; [apply lookup_insert_eq|]).
  - split; [apply agentExecutor_after_turn|].
    split; [|intros l' Hne; now apply lookup_insert_ne].
    now rewrite (filter_in_force_executor _ (new_session f)
                   (agentExecutor_after_turn _ _ _)).
  - split; [reflexivity|].
    split; [reflexivity|intros l' Hne; now apply lookup_insert_ne].
Qed.

Lemma history_of_eq σ σ' u :
  session_of σ' u = session_of σ u → history_of σ' u = history_of σ u.
Proof. unfold history_of. now intros ->. Qed.

(** X22: a request that is not answered with 200 changes no history: in a
    reachable state, after a 400 or a 500 (whichever collaborator failed),
    every user's history is what it was. *)
Theorem failed_request_changes_no_history w req σ u :
  reachable σ →
  status (fst (handle w req σ)) ≠ 200%Z →
  history_of (snd (handle w req σ)) u = history_of σ u.
Proof.
  intros Hσ Hfail.
  destruct (decide (u = userId_of req)) as [->|Hne];
    [|apply history_of_eq, handle_other_user;
      [now apply reachable_entries_live
      |now apply reachable_entries_distinct|exact Hne]].
  destruct (accepted req) eqn:Hacc;
    [|now rewrite handle_rejected].
  destruct (conversationHistories σ !! userId_of req) as [l|] eqn:Hu.
  - destruct (heap σ !! l) as [s|] eqn:Hl;
      [|now rewrite (handle_dangling w req σ l)].
    revert Hfail. rewrite (handle_existing w req σ l s Hacc Hu Hl). cbv zeta.
    destruct (invoke w _ _ _) as [result|error]; simpl; [congruence|].
    intros _. unfold history_of, session_of. simpl. rewrite Hu. simpl.
    rewrite lookup_insert_eq, Hl. simpl. apply chatHistory_with_filter.
  - revert Hfail. rewrite (handle_new w req σ Hacc Hu). cbv zeta.
    assert (history_of σ (userId_of req) = []) as Hnone
      by (unfold history_of; now rewrite (session_of_absent σ _ Hu)).
    rewrite Hnone.
    destruct (fromExistingIndex w _) as [[]|];
      [|intros _; unfold history_of, session_of; simpl; now rewrite Hu].
    destruct (createOpenAIToolsAgent w _) as [[]|];
      [|intros _; unfold history_of, session_of; simpl; now rewrite Hu].
    destruct (invoke w _ _ _) as [result|error]; simpl; [congruence|].
    intros _. unfold history_of, session_of. simpl.
    rewrite lookup_insert_eq. simpl. now rewrite lookup_insert_eq.
Qed.

End Outcomes.

Lemma first_request_constructs_session_witness :
  calls (snd (handle Samples.failing_world
                (Samples.ask "hi" (Some ["1001"])) initial))
  = [FromExistingIndex (id_in ["1001"]);
     CreateOpenAIToolsAgent [retrieverTool_of (id_in ["1001"])];
     Invoke (agentExecutor (new_session (id_in ["1001"]))) "hi" []].
Proof.
  destruct (first_request_constructs_session Samples.failing_world
              (Samples.ask "hi" (Some ["1001"])) initial)
    as (Hcalls & _); [reflexivity|reflexivity|reflexivity|reflexivity|].
  exact Hcalls.
Defined.

(** A failing agent on a request of [u2] leaves both histories. *)
Lemma failed_request_changes_no_history_witness :
  history_of (snd (handle Samples.failing_world
                     (Samples.ask_as "u2" "again" (Some ["2001"]))
                     Samples.two_users)) "u2"
  = [HumanMessage "hello"; AIMessage "Answer to: hello"].
Proof.
  rewrite (failed_request_changes_no_history Samples.failing_world
             (Samples.ask_as "u2" "again" (Some ["2001"])) Samples.two_users
             "u2").
  - reflexivity.
  - apply reachable_two_users.
  - vm_compute. discriminate.
Defined.

(** Two later requests of [u1] with other lesson ids leave the filter of
    the first request in force. *)
Lemma filter_is_fixed_at_creation_witness :
  ∃ s', session_of (snd (serve Samples.retargeting_turns Samples.two_users))
          "u1" = Some s'
        ∧ filter_in_force s' = Some (id_in ["1001"; "1002"]).
Proof.
  destruct (filter_is_fixed_at_creation Samples.retargeting_turns
              Samples.two_users "u1"
              (after_turn "hi" "Answer to: hi"
                 (new_session (id_in ["1001"; "1002"]))))
    as (s' & Hs & _ & Hf).
  - apply reachable_two_users.
  - reflexivity.
  - exists s'. split; [exact Hs|]. rewrite Hf. reflexivity.
Defined.

End ChatExtras.
